(** * VM-exit handling core of the Extended APIs: handler chains,
      the external-interrupt handler and the control-register handler.

    The development is a shallow embedding.  Machine state reached through
    the [vmcs_n] accessors and through the [vmcs_t] pointer is one record
    that is passed explicitly; C++ exceptions are an explicit result type;
    registered delegates are functions on that state. *)

From Stdlib Require Import ZArith List String Bool Lia DecimalString.
From stdpp Require Import base list.
Import ListNotations.

Local Open Scope Z_scope.

(* ------------------------------------------------------------------------- *)
(** ** Machine integers, exceptions, results                                  *)
(* ------------------------------------------------------------------------- *)

(** [uint64_t] arithmetic wraps modulo 2^64. *)
Definition uint64_modulus : Z := 2 ^ 64.

Definition wrap64 (z : Z) : Z := z mod uint64_modulus.

(** [std::to_string] on an unsigned integer: its decimal digits. *)
Definition to_string (z : Z) : string :=
  NilEmpty.string_of_uint (N.to_uint (Z.to_N z)).

(** The exceptions the modelled code raises ([std::runtime_error] in
    [handle], [std::out_of_range] in [std::array::at]); a delegate may
    raise either. *)
Inductive exception : Type :=
| runtime_error (what : string)
| out_of_range (what : string).

(** Outcome of a call that either returns a value or leaves by an
    exception. *)
Inductive result (A : Type) : Type :=
| Ret (a : A)
| Throw (e : exception).

Arguments Ret {A} a.
Arguments Throw {A} e.

Definition returns_normally {A : Type} (r : result A) : Prop :=
  exists a, r = Ret a.

(* ------------------------------------------------------------------------- *)
(** ** The machine state behind [vmcs_t *] and the [vmcs_n] accessors         *)
(* ------------------------------------------------------------------------- *)

(** The VMCS fields and the guest save state this code reads and writes.
    Field accessors are total: a read or write has no partial failure. *)
Record vmcs_t : Type := mk_vmcs {
  fld_pin_based_vm_execution_controls : Z;
  fld_vm_exit_controls : Z;
  fld_vm_exit_interruption_information : Z;
  fld_vm_exit_instruction_length : Z;
  fld_exit_qualification : Z;
  fld_guest_cr0 : Z;
  fld_guest_cr3 : Z;
  fld_guest_cr4 : Z;
  fld_cr0_read_shadow : Z;
  fld_cr4_read_shadow : Z;
  save_state_rip : Z;
  save_state_gpr : Z -> Z
}.

Definition set_pin_based_vm_execution_controls (x : Z) (v : vmcs_t) : vmcs_t :=
  mk_vmcs x (fld_vm_exit_controls v) (fld_vm_exit_interruption_information v)
    (fld_vm_exit_instruction_length v) (fld_exit_qualification v)
    (fld_guest_cr0 v) (fld_guest_cr3 v) (fld_guest_cr4 v)
    (fld_cr0_read_shadow v) (fld_cr4_read_shadow v)
    (save_state_rip v) (save_state_gpr v).

Definition set_vm_exit_controls (x : Z) (v : vmcs_t) : vmcs_t :=
  mk_vmcs (fld_pin_based_vm_execution_controls v) x
    (fld_vm_exit_interruption_information v)
    (fld_vm_exit_instruction_length v) (fld_exit_qualification v)
    (fld_guest_cr0 v) (fld_guest_cr3 v) (fld_guest_cr4 v)
    (fld_cr0_read_shadow v) (fld_cr4_read_shadow v)
    (save_state_rip v) (save_state_gpr v).

Definition set_vm_exit_interruption_information (x : Z) (v : vmcs_t) : vmcs_t :=
  mk_vmcs (fld_pin_based_vm_execution_controls v) (fld_vm_exit_controls v) x
    (fld_vm_exit_instruction_length v) (fld_exit_qualification v)
    (fld_guest_cr0 v) (fld_guest_cr3 v) (fld_guest_cr4 v)
    (fld_cr0_read_shadow v) (fld_cr4_read_shadow v)
    (save_state_rip v) (save_state_gpr v).

Definition set_guest_cr0 (x : Z) (v : vmcs_t) : vmcs_t :=
  mk_vmcs (fld_pin_based_vm_execution_controls v) (fld_vm_exit_controls v)
    (fld_vm_exit_interruption_information v)
    (fld_vm_exit_instruction_length v) (fld_exit_qualification v)
    x (fld_guest_cr3 v) (fld_guest_cr4 v)
    (fld_cr0_read_shadow v) (fld_cr4_read_shadow v)
    (save_state_rip v) (save_state_gpr v).

Definition set_guest_cr3 (x : Z) (v : vmcs_t) : vmcs_t :=
  mk_vmcs (fld_pin_based_vm_execution_controls v) (fld_vm_exit_controls v)
    (fld_vm_exit_interruption_information v)
    (fld_vm_exit_instruction_length v) (fld_exit_qualification v)
    (fld_guest_cr0 v) x (fld_guest_cr4 v)
    (fld_cr0_read_shadow v) (fld_cr4_read_shadow v)
    (save_state_rip v) (save_state_gpr v).

Definition set_guest_cr4 (x : Z) (v : vmcs_t) : vmcs_t :=
  mk_vmcs (fld_pin_based_vm_execution_controls v) (fld_vm_exit_controls v)
    (fld_vm_exit_interruption_information v)
    (fld_vm_exit_instruction_length v) (fld_exit_qualification v)
    (fld_guest_cr0 v) (fld_guest_cr3 v) x
    (fld_cr0_read_shadow v) (fld_cr4_read_shadow v)
    (save_state_rip v) (save_state_gpr v).

Definition set_cr0_read_shadow (x : Z) (v : vmcs_t) : vmcs_t :=
  mk_vmcs (fld_pin_based_vm_execution_controls v) (fld_vm_exit_controls v)
    (fld_vm_exit_interruption_information v)
    (fld_vm_exit_instruction_length v) (fld_exit_qualification v)
    (fld_guest_cr0 v) (fld_guest_cr3 v) (fld_guest_cr4 v)
    x (fld_cr4_read_shadow v)
    (save_state_rip v) (save_state_gpr v).

Definition set_cr4_read_shadow (x : Z) (v : vmcs_t) : vmcs_t :=
  mk_vmcs (fld_pin_based_vm_execution_controls v) (fld_vm_exit_controls v)
    (fld_vm_exit_interruption_information v)
    (fld_vm_exit_instruction_length v) (fld_exit_qualification v)
    (fld_guest_cr0 v) (fld_guest_cr3 v) (fld_guest_cr4 v)
    (fld_cr0_read_shadow v) x
    (save_state_rip v) (save_state_gpr v).

Definition set_rip (x : Z) (v : vmcs_t) : vmcs_t :=
  mk_vmcs (fld_pin_based_vm_execution_controls v) (fld_vm_exit_controls v)
    (fld_vm_exit_interruption_information v)
    (fld_vm_exit_instruction_length v) (fld_exit_qualification v)
    (fld_guest_cr0 v) (fld_guest_cr3 v) (fld_guest_cr4 v)
    (fld_cr0_read_shadow v) (fld_cr4_read_shadow v)
    x (save_state_gpr v).

Definition set_gpr (r x : Z) (v : vmcs_t) : vmcs_t :=
  mk_vmcs (fld_pin_based_vm_execution_controls v) (fld_vm_exit_controls v)
    (fld_vm_exit_interruption_information v)
    (fld_vm_exit_instruction_length v) (fld_exit_qualification v)
    (fld_guest_cr0 v) (fld_guest_cr3 v) (fld_guest_cr4 v)
    (fld_cr0_read_shadow v) (fld_cr4_read_shadow v)
    (save_state_rip v)
    (fun r' => if Z.eqb r' r then x else save_state_gpr v r').

(** Modelled from the spec: the bit-field accessors of the [vmcs_n]
    namespace are not among the sources (they come with the base
    hypervisor's intrinsics).  Each control is one bit of its VMCS field:
    [enable] sets it, [disable] clears it, [is_enabled] reads it, and a
    field access has no failure mode. *)
Module vmcs_n.

Module pin_based_vm_execution_controls.
Module external_interrupt_exiting.
Definition mask : Z := 0x1.
Definition from : Z := 0.
Definition is_enabled (v : vmcs_t) : bool :=
  Z.testbit (fld_pin_based_vm_execution_controls v) from.
Definition enable (v : vmcs_t) : vmcs_t :=
  set_pin_based_vm_execution_controls
    (Z.lor (fld_pin_based_vm_execution_controls v) mask) v.
Definition disable (v : vmcs_t) : vmcs_t :=
  set_pin_based_vm_execution_controls
    (Z.land (fld_pin_based_vm_execution_controls v) (Z.lnot mask)) v.
End external_interrupt_exiting.
End pin_based_vm_execution_controls.

Module vm_exit_controls.
Module acknowledge_interrupt_on_exit.
Definition mask : Z := 0x8000.
Definition from : Z := 15.
Definition is_enabled (v : vmcs_t) : bool :=
  Z.testbit (fld_vm_exit_controls v) from.
Definition enable (v : vmcs_t) : vmcs_t :=
  set_vm_exit_controls (Z.lor (fld_vm_exit_controls v) mask) v.
Definition disable (v : vmcs_t) : vmcs_t :=
  set_vm_exit_controls
    (Z.land (fld_vm_exit_controls v) (Z.lnot mask)) v.
End acknowledge_interrupt_on_exit.
End vm_exit_controls.

Module vm_exit_interruption_information.
Module vector.
Definition mask : Z := 0xFF.
Definition from : Z := 0.
(** Modelled from the spec: the accessor's definition is not among
    the sources; the delivered vector is the low byte of the exit
    interruption-information field. *)
Definition get (v : vmcs_t) : Z :=
  Z.shiftr (Z.land (fld_vm_exit_interruption_information v) mask) from.
End vector.
End vm_exit_interruption_information.

End vmcs_n.

(* ------------------------------------------------------------------------- *)
(** ** Handler chains                                                         *)
(* ------------------------------------------------------------------------- *)

Section handler_chain.

Context {info_t : Type}.

(** [delegate<bool(gsl::not_null<vmcs_t *>, info_t &)>]: a delegate reads
    and writes the machine state and the descriptor it is handed by
    reference, and returns a boolean or throws. *)
Definition handler_delegate_t : Type :=
  vmcs_t -> info_t -> result bool * vmcs_t * info_t.

(** One invocation of a delegate: which one, and what it was handed. *)
Record call_t : Type := mk_call {
  callee : handler_delegate_t;
  arg_vmcs : vmcs_t;
  arg_info : info_t
}.

Record dispatched_t : Type := mk_dispatched {
  claimed : result bool;
  vmcs_after : vmcs_t;
  info_after : info_t;
  calls : list call_t
}.

(** The loop [for (const auto &d : handlers) { if (d(vmcs, info)) ... }]:
    walks the list from its front, stops at the first delegate that
    returns true (or throws), and records every call made.  [claimed] is
    [Ret false] when the loop runs off the end of the list. *)
Fixpoint dispatch (ds : list handler_delegate_t) (vmcs : vmcs_t)
    (info : info_t) : dispatched_t :=
  match ds with
  | [] => mk_dispatched (Ret false) vmcs info []
  | d :: ds' =>
      match d vmcs info with
      | (Ret true, vmcs', info') =>
          mk_dispatched (Ret true) vmcs' info' [mk_call d vmcs info]
      | (Throw e, vmcs', info') =>
          mk_dispatched (Throw e) vmcs' info' [mk_call d vmcs info]
      | (Ret false, vmcs', info') =>
          let r := dispatch ds' vmcs' info' in
          mk_dispatched (claimed r) (vmcs_after r) (info_after r)
            (mk_call d vmcs info :: calls r)
      end
  end.

(** [all_decline ds v i v' i']: called one after the other from state
    [(v, i)], every delegate of [ds] returns false, and the state they
    leave is [(v', i')]. *)
Inductive all_decline :
    list handler_delegate_t -> vmcs_t -> info_t -> vmcs_t -> info_t -> Prop :=
| all_decline_nil v i : all_decline [] v i v i
| all_decline_cons d ds v i v1 i1 v2 i2 :
    d v i = (Ret false, v1, i1) ->
    all_decline ds v1 i1 v2 i2 ->
    all_decline (d :: ds) v i v2 i2.

(** What a recorded call returned. *)
Definition call_returned (c : call_t) : result bool :=
  fst (fst (callee c (arg_vmcs c) (arg_info c))).

End handler_chain.

Arguments handler_delegate_t : clear implicits.
Arguments call_t : clear implicits.
Arguments dispatched_t : clear implicits.

Section call_threading.

Context {info_t : Type}.

(** The machine state and the descriptor a recorded call left behind. *)
Definition call_vmcs_out (c : call_t info_t) : vmcs_t :=
  snd (fst (callee c (arg_vmcs c) (arg_info c))).

Definition call_info_out (c : call_t info_t) : info_t :=
  snd (callee c (arg_vmcs c) (arg_info c)).

(** [threaded v i cs v' i']: the first call of [cs] was handed [(v, i)],
    every later call was handed what the call before it left, and what the
    last call left is [(v', i')] (which is [(v, i)] when [cs] is empty):
    nothing but the calls themselves acted on the state. *)
Fixpoint threaded (v : vmcs_t) (i : info_t) (cs : list (call_t info_t))
    (v' : vmcs_t) (i' : info_t) : Prop :=
  match cs with
  | [] => v' = v /\ i' = i
  | c :: cs' =>
      arg_vmcs c = v /\ arg_info c = i /\
      threaded (call_vmcs_out c) (call_info_out c) cs' v' i'
  end.

End call_threading.


(* ------------------------------------------------------------------------- *)
(** ** external_interrupt.cpp                                                 *)
(* ------------------------------------------------------------------------- *)

Module external_interrupt_handler.

(** Modelled from the spec: the class declaration (external_interrupt.h) is
    not among the sources.  The descriptor built by [handle] holds the
    vector that caused the exit. *)
Record info_t : Type := mk_info { vector : Z }.

(** Modelled from the spec: the members named by external_interrupt.cpp,
    whose declarations are not among the sources: the logging switch
    inherited from [base], the fixed-size table of per-vector counters
    indexed 0..255 ([uint64_t] each) and the handler list. *)
Record t : Type := mk {
  m_log_enabled : bool;
  m_log : list Z;
  m_handlers : list (handler_delegate_t info_t)
}.

(** Modelled from the spec: the state right after construction has no
    handler, every counter zero and logging off. *)
Definition create : t := mk false (replicate 256 0) [].

(** Modelled from the spec: [base::enable_log] and [base::disable_log]
    (base.h is not among the sources) switch the logging flag. *)
Definition enable_log (self : t) : t :=
  mk true (m_log self) (m_handlers self).

Definition disable_log (self : t) : t :=
  mk false (m_log self) (m_handlers self).

(** [m_handlers.push_front(d)]. *)
Definition add_handler (d : handler_delegate_t info_t) (self : t) : t :=
  mk (m_log_enabled self) (m_log self) (d :: m_handlers self).

Definition enable_exiting (vmcs : vmcs_t) : vmcs_t :=
  vmcs_n.vm_exit_controls.acknowledge_interrupt_on_exit.enable
    (vmcs_n.pin_based_vm_execution_controls.external_interrupt_exiting.enable
       vmcs).

Definition disable_exiting (vmcs : vmcs_t) : vmcs_t :=
  vmcs_n.vm_exit_controls.acknowledge_interrupt_on_exit.disable
    (vmcs_n.pin_based_vm_execution_controls.external_interrupt_exiting.disable
       vmcs).

(** [std::array::at]: the checked access throws [std::out_of_range] when the
    index is not below the size. *)
Definition at_ (a : list Z) (i : Z) : result Z :=
  if i <? 0 then Throw (out_of_range "array::at")
  else match a !! Z.to_nat i with
       | Some x => Ret x
       | None => Throw (out_of_range "array::at")
       end.

(** [a.at(i)++] on [uint64_t] elements. *)
Definition at_increment (a : list Z) (i : Z) : result (list Z) :=
  match at_ a i with
  | Ret x => Ret (<[Z.to_nat i := wrap64 (x + 1)]> a)
  | Throw e => Throw e
  end.

(** What [dump_log] appends to the debug message. *)
Inductive debug_line : Type :=
| bfdebug_lnbr
| bfdebug_info (text : string)
| bfdebug_brk2
| bfdebug_subnhex (title : string) (val : Z).

(** The body of the loop of [dump_log] for the indices [ixs], with the
    message built so far and the indices handed to [at] so far. *)
Fixpoint dump_log_loop (a : list Z) (ixs : list Z) (msg : list debug_line)
    (accessed : list Z) : result (list debug_line) * list Z :=
  match ixs with
  | [] => (Ret msg, accessed)
  | i :: ixs' =>
      match at_ a i with
      | Throw e => (Throw e, accessed ++ [i])
      | Ret x =>
          if 0 <? x then
            match at_ a i with
            | Throw e => (Throw e, accessed ++ [i; i])
            | Ret y =>
                dump_log_loop a ixs'
                  (msg ++ [bfdebug_subnhex (to_string i) y])
                  (accessed ++ [i; i])
            end
          else dump_log_loop a ixs' msg (accessed ++ [i])
      end
  end.

(** [dump_log]: the emitted lines, and every index it handed to [at]. *)
Definition dump_log (self : t) : result (list debug_line) * list Z :=
  match dump_log_loop (m_log self) (seqZ 0 256)
          [bfdebug_lnbr; bfdebug_info "External interrupt counts";
           bfdebug_brk2] [] with
  | (Ret msg, accessed) => (Ret (msg ++ [bfdebug_lnbr]), accessed)
  | (Throw e, accessed) => (Throw e, accessed)
  end.

(** What one call of [handle] leaves behind: how it ended, the object, the
    machine state, and the delegate calls it made in order. *)
Record handled_t : Type := mk_handled {
  h_result : result bool;
  h_self : t;
  h_vmcs : vmcs_t;
  h_calls : list (call_t info_t)
}.

Section build_mode.

(** The build-mode constant [ndebug] of bfdebug.h, which is not among the
    sources: logging is compiled in when it is false. *)
Variable ndebug : bool.

Definition logging (self : t) : bool := negb ndebug && m_log_enabled self.

Definition handle (self : t) (vmcs : vmcs_t) : handled_t :=
  let info :=
    mk_info (vmcs_n.vm_exit_interruption_information.vector.get vmcs) in
  match (if logging self
         then at_increment (m_log self) (vector info)
         else Ret (m_log self)) with
  | Throw e => mk_handled (Throw e) self vmcs []
  | Ret log' =>
      let self' := mk (m_log_enabled self) log' (m_handlers self) in
      let r := dispatch (m_handlers self') vmcs info in
      match claimed r with
      | Ret true => mk_handled (Ret true) self' (vmcs_after r) (calls r)
      | Ret false =>
          mk_handled
            (Throw (runtime_error
                      (String.append "Unhandled interrupt vector: "
                         (to_string (vector (info_after r))))))
            self' (vmcs_after r) (calls r)
      | Throw e => mk_handled (Throw e) self' (vmcs_after r) (calls r)
      end
  end.

(** A run of exits: before each one the hardware stores the exit
    interruption information [x], then [handle] is entered; the object and
    the machine state carry over however the call ended. *)
Fixpoint handle_exits (self : t) (vmcs : vmcs_t) (exits : list Z)
    : t * vmcs_t :=
  match exits with
  | [] => (self, vmcs)
  | x :: exits' =>
      let h := handle self (set_vm_exit_interruption_information x vmcs) in
      handle_exits (h_self h) (h_vmcs h) exits'
  end.

End build_mode.

(** The vector the hardware delivers with interruption information [x]. *)
Definition delivered_vector (x : Z) : Z := Z.land x 0xFF.

(** Sample delegates and states for running the definitions. *)
Definition decline : handler_delegate_t info_t :=
  fun vmcs info => (Ret false, vmcs, info).

Definition claim : handler_delegate_t info_t :=
  fun vmcs info => (Ret true, vmcs, info).

Definition vmcs0 : vmcs_t :=
  mk_vmcs 0 0 0 0 0 0 0 0 0 0 0 (fun _ => 0).

Definition throwing : handler_delegate_t info_t :=
  fun vmcs info => (Throw (runtime_error "handler failed"), vmcs, info).

(** Registering the delegates of [ds] one after the other, first to last. *)
Definition add_handlers (ds : list (handler_delegate_t info_t)) (self : t)
    : t :=
  fold_left (fun s d => add_handler d s) ds self.

(** The two calls of the API that program the exiting controls, and a run
    of such calls, first to last. *)
Inductive exiting_call : Type := call_enable_exiting | call_disable_exiting.

Definition run_exiting_call (c : exiting_call) (vmcs : vmcs_t) : vmcs_t :=
  match c with
  | call_enable_exiting => enable_exiting vmcs
  | call_disable_exiting => disable_exiting vmcs
  end.

Definition run_exiting_calls (cs : list exiting_call) (vmcs : vmcs_t)
    : vmcs_t :=
  fold_left (fun v c => run_exiting_call c v) cs vmcs.

(** How many of the exits [exits] delivered vector [v]. *)
Definition exits_with_vector (exits : list Z) (v : Z) : Z :=
  Z.of_nat (count_occ Z.eq_dec (map delivered_vector exits) v).

(** The value of counter [v], read without the bounds check. *)
Definition counter (self : t) (v : Z) : Z :=
  default 0 (m_log self !! Z.to_nat v).

(** The destructor: [if (!ndebug && m_log_enabled) { dump_log(); }].  The
    result is what it emits, or the exception that escapes it. *)
Definition destructor (ndebug : bool) (self : t) : result (list debug_line) :=
  if logging ndebug self then fst (dump_log self) else Ret [].

End external_interrupt_handler.


(* ------------------------------------------------------------------------- *)
(** ** control_register.h                                                     *)
(* ------------------------------------------------------------------------- *)

Module control_register_handler.

(** The descriptor created by [handle] before it is passed to each
    registered handler. *)
Record info_t : Type := mk_info {
  val : Z;
  shadow : Z;
  ignore_write : bool;
  ignore_advance : bool
}.

(** The four handler lists of the class. *)
Record t : Type := mk {
  m_wrcr0_handlers : list (handler_delegate_t info_t);
  m_rdcr3_handlers : list (handler_delegate_t info_t);
  m_wrcr3_handlers : list (handler_delegate_t info_t);
  m_wrcr4_handlers : list (handler_delegate_t info_t)
}.

(** Modelled from the spec: the constructor's body is not among the
    sources; every chain is created empty. *)
Definition create : t := mk [] [] [] [].

(** Modelled from the spec: the bodies of the four [add_*_handler] members
    are not among the sources; registering inserts the callback at the
    front of the corresponding chain. *)
Definition add_wrcr0_handler (d : handler_delegate_t info_t) (self : t) : t :=
  mk (d :: m_wrcr0_handlers self) (m_rdcr3_handlers self)
     (m_wrcr3_handlers self) (m_wrcr4_handlers self).

(** Modelled from the spec: see [add_wrcr0_handler]. *)
Definition add_rdcr3_handler (d : handler_delegate_t info_t) (self : t) : t :=
  mk (m_wrcr0_handlers self) (d :: m_rdcr3_handlers self)
     (m_wrcr3_handlers self) (m_wrcr4_handlers self).

(** Modelled from the spec: see [add_wrcr0_handler]. *)
Definition add_wrcr3_handler (d : handler_delegate_t info_t) (self : t) : t :=
  mk (m_wrcr0_handlers self) (m_rdcr3_handlers self)
     (d :: m_wrcr3_handlers self) (m_wrcr4_handlers self).

(** Modelled from the spec: see [add_wrcr0_handler]. *)
Definition add_wrcr4_handler (d : handler_delegate_t info_t) (self : t) : t :=
  mk (m_wrcr0_handlers self) (m_rdcr3_handlers self)
     (m_wrcr3_handlers self) (d :: m_wrcr4_handlers self).

(** Modelled from the spec: the exit-qualification accessors are not among
    the sources.  For a control-register access the qualification holds the
    register number in bits 3:0, the access type in bits 5:4 (0 is a move to
    the control register, 1 a move from it) and the general-purpose
    register operand in bits 11:8. *)
Definition control_register_number (vmcs : vmcs_t) : Z :=
  Z.land (fld_exit_qualification vmcs) 0xF.

(** Modelled from the spec: see [control_register_number]. *)
Definition access_type (vmcs : vmcs_t) : Z :=
  Z.shiftr (Z.land (fld_exit_qualification vmcs) 0x30) 4.

(** Modelled from the spec: see [control_register_number]. *)
Definition general_purpose_register (vmcs : vmcs_t) : Z :=
  Z.shiftr (Z.land (fld_exit_qualification vmcs) 0xF00) 8.

Definition mov_to_cr : Z := 0.
Definition mov_from_cr : Z := 1.

(** Modelled from the spec: [base::emulate_rdgpr] is not among the sources;
    it reads the guest's general-purpose register named by the exit. *)
Definition emulate_rdgpr (vmcs : vmcs_t) : Z :=
  save_state_gpr vmcs (general_purpose_register vmcs).

(** Modelled from the spec: [base::emulate_wrgpr] is not among the sources;
    it writes the guest's general-purpose register named by the exit. *)
Definition emulate_wrgpr (x : Z) (vmcs : vmcs_t) : vmcs_t :=
  set_gpr (general_purpose_register vmcs) x vmcs.

(** Modelled from the spec: [advance] is not among the sources; it moves the
    guest instruction pointer past the trapping instruction. *)
Definition advance (vmcs : vmcs_t) : vmcs_t :=
  set_rip (wrap64 (save_state_rip vmcs + fld_vm_exit_instruction_length vmcs))
    vmcs.

(** What one call of [handle] leaves behind. *)
Record handled_t : Type := mk_handled {
  h_result : result bool;
  h_vmcs : vmcs_t;
  h_calls : list (call_t info_t)
}.

(** Modelled from the spec: the bodies of the [handle_*] members are not
    among the sources.  Each builds the descriptor with its defaults, runs
    its chain, and on a claim applies [write_back] unless [ignore_write] is
    set and advances the instruction pointer unless [ignore_advance] is
    set.  The per-register logs are left out: they do not feed back into
    the handling of an exit. *)
Definition run_chain (ds : list (handler_delegate_t info_t))
    (write_back : info_t -> vmcs_t -> vmcs_t) (info : info_t)
    (vmcs : vmcs_t) : handled_t :=
  let r := dispatch ds vmcs info in
  match claimed r with
  | Ret true =>
      let i := info_after r in
      let v1 := if ignore_write i then vmcs_after r
                else write_back i (vmcs_after r) in
      let v2 := if ignore_advance i then v1 else advance v1 in
      mk_handled (Ret true) v2 (calls r)
  | Ret false => mk_handled (Ret false) (vmcs_after r) (calls r)
  | Throw e => mk_handled (Throw e) (vmcs_after r) (calls r)
  end.

(** Modelled from the spec: write CR0. *)
Definition handle_wrcr0 (self : t) (vmcs : vmcs_t) : handled_t :=
  run_chain (m_wrcr0_handlers self)
    (fun i v => set_cr0_read_shadow (shadow i) (set_guest_cr0 (val i) v))
    (mk_info (emulate_rdgpr vmcs) (fld_cr0_read_shadow vmcs) false false)
    vmcs.

(** Modelled from the spec: read CR3. *)
Definition handle_rdcr3 (self : t) (vmcs : vmcs_t) : handled_t :=
  run_chain (m_rdcr3_handlers self)
    (fun i v => emulate_wrgpr (val i) v)
    (mk_info (fld_guest_cr3 vmcs) 0 false false)
    vmcs.

(** Modelled from the spec: write CR3. *)
Definition handle_wrcr3 (self : t) (vmcs : vmcs_t) : handled_t :=
  run_chain (m_wrcr3_handlers self)
    (fun i v => set_guest_cr3 (val i) v)
    (mk_info (emulate_rdgpr vmcs) 0 false false)
    vmcs.

(** Modelled from the spec: write CR4. *)
Definition handle_wrcr4 (self : t) (vmcs : vmcs_t) : handled_t :=
  run_chain (m_wrcr4_handlers self)
    (fun i v => set_cr4_read_shadow (shadow i) (set_guest_cr4 (val i) v))
    (mk_info (emulate_rdgpr vmcs) (fld_cr4_read_shadow vmcs) false false)
    vmcs.

(** The register and direction of an exit that has a chain. *)
Inductive access_t : Type := wrcr0 | rdcr3 | wrcr3 | wrcr4.

(** Modelled from the spec: the decoding done by [handle], [handle_cr0],
    [handle_cr3] and [handle_cr4], whose bodies are not among the sources. *)
Definition decode (vmcs : vmcs_t) : option access_t :=
  let cr := control_register_number vmcs in
  let ty := access_type vmcs in
  if Z.eqb cr 0 then
    if Z.eqb ty mov_to_cr then Some wrcr0 else None
  else if Z.eqb cr 3 then
    if Z.eqb ty mov_to_cr then Some wrcr3
    else if Z.eqb ty mov_from_cr then Some rdcr3 else None
  else if Z.eqb cr 4 then
    if Z.eqb ty mov_to_cr then Some wrcr4 else None
  else None.

(** Modelled from the spec: the exit entry point dispatches to the path
    matching the decoded register and direction; without a matching chain
    nothing claims the exit. *)
Definition handle (self : t) (vmcs : vmcs_t) : handled_t :=
  match decode vmcs with
  | Some wrcr0 => handle_wrcr0 self vmcs
  | Some rdcr3 => handle_rdcr3 self vmcs
  | Some wrcr3 => handle_wrcr3 self vmcs
  | Some wrcr4 => handle_wrcr4 self vmcs
  | None => mk_handled (Ret false) vmcs []
  end.

(** The chain an access is dispatched to. *)
Definition chain_of (a : access_t) (self : t)
    : list (handler_delegate_t info_t) :=
  match a with
  | wrcr0 => m_wrcr0_handlers self
  | rdcr3 => m_rdcr3_handlers self
  | wrcr3 => m_wrcr3_handlers self
  | wrcr4 => m_wrcr4_handlers self
  end.

(** Sample delegates and a sample write-CR0 exit ([mov cr0, rbx], three
    bytes long) for running the definitions. *)
Definition set_cr0_view : handler_delegate_t info_t :=
  fun vmcs _ => (Ret true, vmcs, mk_info 0x80000011 0x00000001 false false).

Definition claim_ignoring_write : handler_delegate_t info_t :=
  fun vmcs info => (Ret true, vmcs, mk_info (val info) (shadow info) true false).

Definition wrcr0_exit : vmcs_t :=
  mk_vmcs 0 0 0 3 0x300 0x80000031 0x1000 0x2000 0x31 0x2000 0xFFFF8000
    (fun r => if Z.eqb r 3 then 0x80000033 else 0).

End control_register_handler.

(* ------------------------------------------------------------------------- *)
(** ** Properties of handler chains                                           *)
(* ------------------------------------------------------------------------- *)

Section handler_chain_facts.

Context {info_t : Type}.

Abbreviation delegate := (handler_delegate_t info_t).

Lemma dispatch_all_decline (pre rest : list delegate) v i v1 i1 :
  all_decline pre v i v1 i1 ->
  dispatch (pre ++ rest) v i =
    let r0 := dispatch pre v i in
    let r := dispatch rest v1 i1 in
    mk_dispatched (claimed r) (vmcs_after r) (info_after r)
      (calls r0 ++ calls r).
Proof.
  induction 1 as [v i | d ds v i v1 i1 v2 i2 Hd _ IH]; simpl.
  - now destruct (dispatch rest v i).
  - rewrite Hd. rewrite IH. reflexivity.
Qed.

Lemma dispatch_declined_calls (pre : list delegate) v i v1 i1 :
  all_decline pre v i v1 i1 ->
  dispatch pre v i =
    mk_dispatched (Ret false) v1 i1 (calls (dispatch pre v i)) /\
  map callee (calls (dispatch pre v i)) = pre.
Proof.
  induction 1 as [v i | d ds v i v1 i1 v2 i2 Hd _ [IH1 IH2]]; simpl.
  - auto.
  - rewrite Hd. simpl. rewrite IH1 at 1 2 3. simpl. now rewrite IH2.
Qed.

(** A chain in which [pre] declines and the next delegate [d] returns true:
    the dispatch is claimed, and the calls made are those of [pre] followed
    by the one call of [d]. *)
Lemma dispatch_first_claim (pre post : list delegate) (d : delegate)
    v i v1 i1 v2 i2 :
  all_decline pre v i v1 i1 ->
  d v1 i1 = (Ret true, v2, i2) ->
  dispatch (pre ++ d :: post) v i =
    mk_dispatched (Ret true) v2 i2
      (calls (dispatch pre v i) ++ [mk_call d v1 i1]).
Proof.
  intros Hpre Hd.
  rewrite (dispatch_all_decline _ _ _ _ _ _ Hpre). simpl. now rewrite Hd.
Qed.

(** The delegates called are a front segment of the chain, in chain order. *)
Lemma dispatch_calls_take (ds : list delegate) v i :
  map callee (calls (dispatch ds v i)) =
    take (length (calls (dispatch ds v i))) ds.
Proof.
  revert v i. induction ds as [|d ds IH]; intros v i; simpl; [reflexivity|].
  destruct (d v i) as [[[[]|e] v'] i']; simpl; try reflexivity.
  now rewrite <- IH.
Qed.

(** The first call is handed exactly the state the dispatch started in. *)
Lemma dispatch_first_call (d : delegate) ds v i :
  exists rest, calls (dispatch (d :: ds) v i) = mk_call d v i :: rest.
Proof.
  simpl. destruct (d v i) as [[[[]|e] v'] i']; simpl; eauto.
Qed.

(** A dispatch is claimed only through a call that returned true; that call
    is the last one made. *)
Lemma dispatch_claimed_last (ds : list delegate) v i :
  claimed (dispatch ds v i) = Ret true ->
  exists c, last (calls (dispatch ds v i)) = Some c /\
            call_returned c = Ret true.
Proof.
  revert v i. induction ds as [|d ds IH]; intros v i; simpl; [discriminate|].
  destruct (d v i) as [[[[]|e] v'] i'] eqn:Hd; simpl; try discriminate.
  - intros _. exists (mk_call d v i). split; [reflexivity|].
    unfold call_returned. simpl. now rewrite Hd.
  - intros H. destruct (IH _ _ H) as (c & Hl & Hc). exists c. split; [|exact Hc].
    destruct (calls (dispatch ds v' i')); [discriminate|exact Hl].
Qed.

(** Every call before the last one returned false. *)
Lemma dispatch_earlier_calls_false (ds : list delegate) v i k c :
  calls (dispatch ds v i) !! k = Some c ->
  (S k < length (calls (dispatch ds v i)))%nat ->
  call_returned c = Ret false.
Proof.
  revert v i k. induction ds as [|d ds IH]; intros v i k; simpl; [discriminate|].
  destruct (d v i) as [[[[]|e] v'] i'] eqn:Hd; simpl.
  - intros _ Hk. lia.
  - destruct k as [|k]; simpl.
    + intros [= <-] _. unfold call_returned. simpl. now rewrite Hd.
    + intros Hc Hk. apply (IH v' i' k); [exact Hc|lia].
  - intros _ Hk. lia.
Qed.

(** A dispatch throws only what the last call made threw. *)
Lemma dispatch_throw_last (ds : list delegate) v i e :
  claimed (dispatch ds v i) = Throw e ->
  exists c, last (calls (dispatch ds v i)) = Some c /\
            call_returned c = Throw e.
Proof.
  revert v i. induction ds as [|d ds IH]; intros v i; simpl; [discriminate|].
  destruct (d v i) as [[[[]|e'] v'] i'] eqn:Hd; simpl; try discriminate.
  - intros H. destruct (IH _ _ H) as (c & Hl & Hc). exists c. split; [|exact Hc].
    destruct (calls (dispatch ds v' i')); [discriminate|exact Hl].
  - intros [= ->]. exists (mk_call d v i). split; [reflexivity|].
    unfold call_returned. simpl. now rewrite Hd.
Qed.

(** A recorded call that returned true is the call that claimed the
    dispatch: the dispatch is claimed and ends in the state that call
    left. *)
Lemma dispatch_claiming_call (ds : list delegate) v i c v2 i2 :
  In c (calls (dispatch ds v i)) ->
  callee c (arg_vmcs c) (arg_info c) = (Ret true, v2, i2) ->
  dispatch ds v i =
    mk_dispatched (Ret true) v2 i2 (calls (dispatch ds v i)).
Proof.
  revert v i. induction ds as [|d ds IH]; intros v i; simpl; [tauto|].
  destruct (d v i) as [[[[]|e] v'] i'] eqn:Hd; simpl.
  - intros [<-|[]] Hc. simpl in Hc. rewrite Hd in Hc. now inversion Hc.
  - intros [<-|Hin] Hc.
    + simpl in Hc. rewrite Hd in Hc. discriminate.
    + rewrite (IH _ _ Hin Hc) at 1 2 3. reflexivity.
  - intros [<-|[]] Hc. simpl in Hc. rewrite Hd in Hc. discriminate.
Qed.

End handler_chain_facts.

(* ------------------------------------------------------------------------- *)
(** ** The external-interrupt handler                                         *)
(* ------------------------------------------------------------------------- *)

Module external_interrupt_facts.

Import external_interrupt_handler.

Abbreviation vector_get := vmcs_n.vm_exit_interruption_information.vector.get.
Abbreviation exiting_is_enabled :=
  vmcs_n.pin_based_vm_execution_controls.external_interrupt_exiting.is_enabled.
Abbreviation acknowledge_is_enabled :=
  vmcs_n.vm_exit_controls.acknowledge_interrupt_on_exit.is_enabled.

Lemma vector_get_delivered x vmcs :
  vector_get (set_vm_exit_interruption_information x vmcs)
  = delivered_vector x.
Proof.
  unfold vmcs_n.vm_exit_interruption_information.vector.get, delivered_vector.
  simpl. now rewrite Z.shiftr_0_r.
Qed.

Lemma delivered_vector_range x : 0 <= delivered_vector x < 256.
Proof.
  unfold delivered_vector. change 0xFF with (Z.ones 8).
  rewrite Z.land_ones by lia. apply Z.mod_pos_bound. lia.
Qed.

Lemma vector_get_range vmcs : 0 <= vector_get vmcs < 256.
Proof.
  unfold vmcs_n.vm_exit_interruption_information.vector.get.
  rewrite Z.shiftr_0_r. apply delivered_vector_range.
Qed.

Lemma at_in_range (a : list Z) i :
  0 <= i < Z.of_nat (length a) ->
  exists x, a !! Z.to_nat i = Some x /\ at_ a i = Ret x.
Proof.
  intros Hi. unfold at_.
  destruct (Z.ltb_spec i 0) as [?|_]; [lia|].
  destruct (a !! Z.to_nat i) as [x|] eqn:Hx; [eauto|].
  apply lookup_ge_None in Hx. lia.
Qed.

Lemma at_out_of_range (a : list Z) i :
  ~ 0 <= i < Z.of_nat (length a) ->
  at_ a i = Throw (out_of_range "array::at").
Proof.
  intros Hi. unfold at_.
  destruct (Z.ltb_spec i 0) as [?|?]; [reflexivity|].
  destruct (a !! Z.to_nat i) as [x|] eqn:Hx; [|reflexivity].
  apply lookup_lt_Some in Hx. lia.
Qed.

Lemma at_increment_in_range (a : list Z) i :
  0 <= i < Z.of_nat (length a) ->
  exists x, a !! Z.to_nat i = Some x /\
            at_increment a i = Ret (<[Z.to_nat i := wrap64 (x + 1)]> a).
Proof.
  intros Hi. destruct (at_in_range a i Hi) as (x & Hx & Hat).
  exists x. split; [exact Hx|]. unfold at_increment. now rewrite Hat.
Qed.

Section build_mode.

Variable ndebug : bool.

(** Whatever the chain does, [handle] keeps the handler list and the
    logging switch, and the counters are those left by the logging step. *)
Lemma handle_self_logging self vmcs :
  length (m_log self) = 256%nat ->
  logging ndebug self = true ->
  exists c,
    m_log self !! Z.to_nat (vector_get vmcs) = Some c /\
    h_self (handle ndebug self vmcs) =
      mk (m_log_enabled self)
         (<[Z.to_nat (vector_get vmcs) := wrap64 (c + 1)]> (m_log self))
         (m_handlers self).
Proof.
  intros Hlen Hlog.
  destruct (at_increment_in_range (m_log self) (vector_get vmcs))
    as (c & Hc & Hinc).
  { rewrite Hlen. pose proof (vector_get_range vmcs). lia. }
  exists c. split; [exact Hc|].
  unfold handle. rewrite Hlog. simpl. rewrite Hinc.
  destruct (claimed _) as [[]|]; reflexivity.
Qed.

Lemma handle_self_not_logging self vmcs :
  logging ndebug self = false ->
  h_self (handle ndebug self vmcs) = self.
Proof.
  intros Hlog. unfold handle. rewrite Hlog.
  destruct (claimed _) as [[]|]; destruct self; reflexivity.
Qed.

(** With well-sized counters [handle] is its chain dispatch followed by the
    return or the throw. *)
Lemma handle_dispatch self vmcs :
  length (m_log self) = 256%nat ->
  let r := dispatch (m_handlers self) vmcs (mk_info (vector_get vmcs)) in
  h_calls (handle ndebug self vmcs) = calls r /\
  h_vmcs (handle ndebug self vmcs) = vmcs_after r /\
  h_result (handle ndebug self vmcs) =
    match claimed r with
    | Ret true => Ret true
    | Ret false =>
        Throw (runtime_error
                 (String.append "Unhandled interrupt vector: "
                    (to_string (vector (info_after r)))))
    | Throw e => Throw e
    end.
Proof.
  intros Hlen r. unfold handle.
  destruct (logging ndebug self).
  - destruct (at_increment_in_range (m_log self) (vector_get vmcs))
      as (c & Hc & Hinc).
    { rewrite Hlen. pose proof (vector_get_range vmcs). lia. }
    simpl. rewrite Hinc. simpl. fold r.
    destruct (claimed r) as [[]|]; auto.
  - simpl. fold r. destruct (claimed r) as [[]|]; auto.
Qed.

End build_mode.

Lemma add_handlers_members ds self :
  m_handlers (add_handlers ds self) = rev ds ++ m_handlers self /\
  m_log (add_handlers ds self) = m_log self /\
  m_log_enabled (add_handlers ds self) = m_log_enabled self.
Proof.
  unfold add_handlers. revert self.
  induction ds as [|d ds IH]; intros self; simpl; [auto|].
  destruct (IH (add_handler d self)) as (-> & -> & ->). simpl.
  now rewrite <- app_assoc.
Qed.

(** The chain after registering [H1], then [l1], then [H2], then [l2]. *)
Lemma registered_chain H1 H2 l1 l2 self :
  let self' :=
    add_handlers l2 (add_handler H2 (add_handlers l1 (add_handler H1 self))) in
  m_handlers self' = rev l2 ++ H2 :: rev l1 ++ H1 :: m_handlers self /\
  m_log self' = m_log self.
Proof.
  simpl.
  destruct (add_handlers_members l2
              (add_handler H2 (add_handlers l1 (add_handler H1 self))))
    as (-> & -> & _). simpl.
  destruct (add_handlers_members l1 (add_handler H1 self)) as (-> & -> & _).
  auto.
Qed.

Lemma registered_positions {A : Type} (a b rest : list A) (x y : A) :
  (a ++ x :: b ++ y :: rest) !! length a = Some x /\
  (a ++ x :: b ++ y :: rest) !! (length a + 1 + length b)%nat = Some y.
Proof.
  split.
  - rewrite lookup_app_r by lia. now rewrite Nat.sub_diag.
  - rewrite lookup_app_r by lia.
    replace (length a + 1 + length b - length a)%nat with (S (length b)) by lia.
    simpl. rewrite lookup_app_r by lia. now rewrite Nat.sub_diag.
Qed.

(** C1. A registration goes to the front of the chain and [handle] walks the
    chain from the front: with [H1] registered before [H2] (other
    registrations [l1] in between and [l2] afterwards), the delegates called
    are a front segment of the chain; whenever the call of [H1] is made, the
    call of [H2] was made before it and returned false; and when everything
    in front of [H1] declines and [H1] claims, exactly the delegates up to
    [H1] are called, [H2] before [H1], and [handle] returns true. *)
Theorem C1_most_recently_registered_first
    ndebug self H1 H2 l1 l2 vmcs :
  length (m_log self) = 256%nat ->
  let self' :=
    add_handlers l2 (add_handler H2 (add_handlers l1 (add_handler H1 self))) in
  let h := handle ndebug self' vmcs in
  let p2 := length l2 in
  let p1 := (length l2 + 1 + length l1)%nat in
  m_handlers self' = rev l2 ++ H2 :: rev l1 ++ H1 :: m_handlers self /\
  map callee (h_calls h) = take (length (h_calls h)) (m_handlers self') /\
  (forall c1, h_calls h !! p1 = Some c1 ->
     callee c1 = H1 /\
     exists c2, h_calls h !! p2 = Some c2 /\ callee c2 = H2 /\
                (p2 < p1)%nat /\ call_returned c2 = Ret false) /\
  (forall v1 i1 v2 i2,
     all_decline (rev l2 ++ H2 :: rev l1) vmcs (mk_info (vector_get vmcs))
       v1 i1 ->
     H1 v1 i1 = (Ret true, v2, i2) ->
     h_result h = Ret true /\
     map callee (h_calls h) = rev l2 ++ H2 :: rev l1 ++ [H1]).
Proof.
  intros Hlen self' h p2 p1.
  destruct (registered_chain H1 H2 l1 l2 self) as [Hchain Hlog].
  fold self' in Hchain, Hlog.
  assert (Hlen' : length (m_log self') = 256%nat) by now rewrite Hlog.
  destruct (handle_dispatch ndebug self' vmcs Hlen') as (Hcalls & _ & Hres).
  fold h in Hcalls, Hres.
  assert (Htake : map callee (h_calls h)
                  = take (length (h_calls h)) (m_handlers self')).
  { rewrite Hcalls. apply dispatch_calls_take. }
  destruct (registered_positions (rev l2) (rev l1) (m_handlers self) H2 H1)
    as [Hp2 Hp1].
  rewrite ?length_rev in Hp2. rewrite ?length_rev in Hp1.
  rewrite <- Hchain in Hp2, Hp1.
  split; [exact Hchain|]. split; [exact Htake|]. split.
  - intros c1 Hc1.
    assert (Hlt : (p1 < length (h_calls h))%nat)
      by (eapply lookup_lt_Some; exact Hc1).
    assert (Hm1 : map callee (h_calls h) !! p1 = Some (callee c1))
      by (rewrite list_lookup_fmap, Hc1; reflexivity).
    rewrite Htake, lookup_take_lt in Hm1 by exact Hlt.
    fold p1 in Hp1. rewrite Hp1 in Hm1. injection Hm1 as Hm1.
    split; [now symmetry|].
    assert (Hlt2 : (p2 < length (h_calls h))%nat) by (unfold p1, p2 in *; lia).
    destruct (lookup_lt_is_Some_2 (h_calls h) p2 Hlt2) as [c2 Hc2].
    exists c2. split; [exact Hc2|].
    assert (Hm2 : map callee (h_calls h) !! p2 = Some (callee c2))
      by (rewrite list_lookup_fmap, Hc2; reflexivity).
    rewrite Htake, lookup_take_lt in Hm2 by exact Hlt2.
    fold p2 in Hp2. rewrite Hp2 in Hm2. injection Hm2 as Hm2.
    split; [now symmetry|]. split; [unfold p1, p2; lia|].
    rewrite Hcalls in Hc2, Hlt.
    eapply dispatch_earlier_calls_false; [exact Hc2|unfold p1, p2 in *; lia].
  - intros v1 i1 v2 i2 Hpre Hcl.
    pose proof (dispatch_first_claim _ (m_handlers self) _ _ _ _ _ _ _ Hpre Hcl)
      as Hd.
    assert (Heq : m_handlers self'
                  = (rev l2 ++ H2 :: rev l1) ++ H1 :: m_handlers self).
    { rewrite Hchain. rewrite <- app_assoc. reflexivity. }
    rewrite Heq in Hres, Hcalls. rewrite Hd in Hres, Hcalls. simpl in Hres, Hcalls.
    split; [exact Hres|].
    rewrite Hcalls, map_app.
    destruct (dispatch_declined_calls _ _ _ _ _ Hpre) as [_ ->].
    simpl. rewrite <- app_assoc. reflexivity.
Qed.

(** C3. When the delegates in front of [d] decline and [d] returns true,
    [handle] returns true, the calls made are exactly those of the
    delegates up to and including [d], and the state is the one [d] left:
    nothing positioned after [d] is called. *)
Theorem C3_dispatch_stops_at_first_claim
    ndebug self pre d post vmcs v1 i1 v2 i2 :
  length (m_log self) = 256%nat ->
  m_handlers self = pre ++ d :: post ->
  all_decline pre vmcs (mk_info (vector_get vmcs)) v1 i1 ->
  d v1 i1 = (Ret true, v2, i2) ->
  let h := handle ndebug self vmcs in
  h_result h = Ret true /\
  map callee (h_calls h) = pre ++ [d] /\
  length (h_calls h) = S (length pre) /\
  h_vmcs h = v2.
Proof.
  intros Hlen Hchain Hpre Hd h.
  destruct (handle_dispatch ndebug self vmcs Hlen) as (Hcalls & Hvmcs & Hres).
  fold h in Hcalls, Hvmcs, Hres.
  rewrite Hchain in Hcalls, Hvmcs, Hres.
  rewrite (dispatch_first_claim _ post _ _ _ _ _ _ _ Hpre Hd)
    in Hcalls, Hvmcs, Hres.
  simpl in Hcalls, Hvmcs, Hres.
  destruct (dispatch_declined_calls _ _ _ _ _ Hpre) as [_ Hmap].
  assert (Hc : map callee (h_calls h) = pre ++ [d]).
  { rewrite Hcalls, map_app, Hmap. reflexivity. }
  repeat split; try assumption.
  rewrite <- (length_map callee), Hc, length_app. simpl. lia.
Qed.

(** C2. If no call made by [handle] returned true, [handle] does not return
    normally: it leaves by an exception.  When every delegate declines (in
    particular when the chain is empty) the exception is the
    [std::runtime_error] naming the vector. *)
Theorem C2_unclaimed_interrupt_does_not_return
    ndebug self vmcs :
  let h := handle ndebug self vmcs in
  ((forall c, In c (h_calls h) -> call_returned c <> Ret true) ->
   ~ returns_normally (h_result h)) /\
  (forall v1 i1,
     length (m_log self) = 256%nat ->
     all_decline (m_handlers self) vmcs (mk_info (vector_get vmcs)) v1 i1 ->
     h_result h =
       Throw (runtime_error
                (String.append "Unhandled interrupt vector: "
                   (to_string (vector i1))))) /\
  (length (m_log self) = 256%nat ->
   m_handlers self = [] ->
   h_result h =
     Throw (runtime_error
              (String.append "Unhandled interrupt vector: "
                 (to_string (vector_get vmcs))))).
Proof.
  intros h.
  assert (Hdecl : forall v1 i1,
            length (m_log self) = 256%nat ->
            all_decline (m_handlers self) vmcs (mk_info (vector_get vmcs))
              v1 i1 ->
            h_result h =
              Throw (runtime_error
                       (String.append "Unhandled interrupt vector: "
                          (to_string (vector i1))))).
  { intros v1 i1 Hlen Hall.
    destruct (handle_dispatch ndebug self vmcs Hlen) as (_ & _ & Hres).
    fold h in Hres.
    destruct (dispatch_declined_calls _ _ _ _ _ Hall) as [Hd _].
    rewrite Hd in Hres. exact Hres. }
  split; [|split; [exact Hdecl|]].
  - intros Hno [b Hb]. unfold h, handle in *.
    destruct (if logging ndebug self then _ else _) as [log'|e];
      [|discriminate].
    simpl in *.
    set (r := dispatch (m_handlers self) vmcs (mk_info (vector_get vmcs))) in *.
    destruct (claimed r) as [[]|e] eqn:Hcl; try discriminate.
    destruct (dispatch_claimed_last _ _ _ Hcl) as (c & Hlast & Hc).
    apply (Hno c); [|exact Hc].
    simpl. apply list_elem_of_In. now apply last_Some_elem_of.
  - intros Hlen Hnil.
    specialize (Hdecl vmcs (mk_info (vector_get vmcs)) Hlen).
    rewrite Hnil in Hdecl. apply Hdecl. constructor.
Qed.

Lemma enable_exiting_sets_both vmcs :
  exiting_is_enabled (enable_exiting vmcs) = true /\
  acknowledge_is_enabled (enable_exiting vmcs) = true.
Proof.
  unfold enable_exiting,
    vmcs_n.pin_based_vm_execution_controls.external_interrupt_exiting.is_enabled,
    vmcs_n.pin_based_vm_execution_controls.external_interrupt_exiting.enable,
    vmcs_n.vm_exit_controls.acknowledge_interrupt_on_exit.is_enabled,
    vmcs_n.vm_exit_controls.acknowledge_interrupt_on_exit.enable.
  cbn [fld_pin_based_vm_execution_controls fld_vm_exit_controls
       set_pin_based_vm_execution_controls set_vm_exit_controls].
  split; rewrite Z.lor_spec; apply orb_true_r.
Qed.

Lemma disable_exiting_clears_both vmcs :
  exiting_is_enabled (disable_exiting vmcs) = false /\
  acknowledge_is_enabled (disable_exiting vmcs) = false.
Proof.
  unfold disable_exiting,
    vmcs_n.pin_based_vm_execution_controls.external_interrupt_exiting.is_enabled,
    vmcs_n.pin_based_vm_execution_controls.external_interrupt_exiting.disable,
    vmcs_n.vm_exit_controls.acknowledge_interrupt_on_exit.is_enabled,
    vmcs_n.vm_exit_controls.acknowledge_interrupt_on_exit.disable.
  cbn [fld_pin_based_vm_execution_controls fld_vm_exit_controls
       set_pin_based_vm_execution_controls set_vm_exit_controls].
  split; rewrite Z.land_spec; apply andb_false_r.
Qed.

Lemma run_exiting_call_coupled c vmcs :
  exiting_is_enabled (run_exiting_call c vmcs)
  = acknowledge_is_enabled (run_exiting_call c vmcs).
Proof.
  destruct c; simpl.
  - destruct (enable_exiting_sets_both vmcs) as [-> ->]. reflexivity.
  - destruct (disable_exiting_clears_both vmcs) as [-> ->]. reflexivity.
Qed.

(** C4. [enable_exiting] leaves both controls enabled, [disable_exiting]
    leaves both disabled, and after any run of one or more of these calls,
    from any machine state, the two controls read the same. *)
Theorem C4_exiting_controls_coupled vmcs c cs :
  (exiting_is_enabled (enable_exiting vmcs) = true /\
   acknowledge_is_enabled (enable_exiting vmcs) = true) /\
  (exiting_is_enabled (disable_exiting vmcs) = false /\
   acknowledge_is_enabled (disable_exiting vmcs) = false) /\
  exiting_is_enabled (run_exiting_calls (c :: cs) vmcs)
  = acknowledge_is_enabled (run_exiting_calls (c :: cs) vmcs).
Proof.
  split; [apply enable_exiting_sets_both|].
  split; [apply disable_exiting_clears_both|].
  revert c vmcs. induction cs as [|c' cs IH]; intros c vmcs.
  - apply run_exiting_call_coupled.
  - apply (IH c' (run_exiting_call c vmcs)).
Qed.

Lemma wrap64_small z : 0 <= z < uint64_modulus -> wrap64 z = z.
Proof. intros H. unfold wrap64. now apply Z.mod_small. Qed.

Lemma wrap64_add_l a b : wrap64 (wrap64 a + b) = wrap64 (a + b).
Proof.
  unfold wrap64, uint64_modulus. now rewrite Zplus_mod_idemp_l.
Qed.

Lemma exits_with_vector_cons x exits v :
  exits_with_vector (x :: exits) v =
    (if Z.eq_dec (delivered_vector x) v then 1 else 0)
    + exits_with_vector exits v.
Proof.
  unfold exits_with_vector. simpl.
  destruct (Z.eq_dec (delivered_vector x) v); lia.
Qed.

Lemma exits_with_vector_bound exits v :
  0 <= exits_with_vector exits v <= Z.of_nat (length exits).
Proof.
  unfold exits_with_vector.
  pose proof (count_occ_bound Z.eq_dec v (map delivered_vector exits)) as H.
  rewrite length_map in H. lia.
Qed.

(** Counters over a run of exits with logging on: each counter has grown,
    modulo 2^64, by the number of exits that delivered its vector. *)
Lemma handle_exits_logging ndebug exits : forall self vmcs,
  length (m_log self) = 256%nat ->
  logging ndebug self = true ->
  let s' := fst (handle_exits ndebug self vmcs exits) in
  length (m_log s') = 256%nat /\
  forall v c0, 0 <= v < 256 -> 0 <= c0 < uint64_modulus ->
    m_log self !! Z.to_nat v = Some c0 ->
    m_log s' !! Z.to_nat v = Some (wrap64 (c0 + exits_with_vector exits v)).
Proof.
  induction exits as [|x exits IH]; intros self vmcs Hlen Hlog.
  - split; [exact Hlen|]. intros v c0 Hv Hr Hc0. simpl.
    unfold exits_with_vector. simpl. rewrite Z.add_0_r.
    now rewrite wrap64_small.
  - cbn [handle_exits].
    set (vmcs1 := set_vm_exit_interruption_information x vmcs).
    destruct (handle_self_logging ndebug self vmcs1 Hlen Hlog)
      as (c & Hc & Hself).
    unfold vmcs1 in Hc, Hself at 2. rewrite vector_get_delivered in Hc, Hself.
    pose proof (delivered_vector_range x) as Hx.
    set (h := handle ndebug self vmcs1) in *.
    assert (Hlen1 : length (m_log (h_self h)) = 256%nat).
    { rewrite Hself. simpl. now rewrite length_insert. }
    assert (Hlog1 : logging ndebug (h_self h) = true).
    { rewrite Hself. exact Hlog. }
    destruct (IH (h_self h) (h_vmcs h) Hlen1 Hlog1) as [IHlen IHcnt].
    split; [exact IHlen|].
    intros v c0 Hv Hr Hc0. rewrite exits_with_vector_cons.
    destruct (Z.eq_dec (delivered_vector x) v) as [Heq|Hne].
    + subst v. rewrite Hc0 in Hc. injection Hc as <-.
      rewrite (IHcnt _ (wrap64 (c0 + 1)) Hv).
      * now rewrite wrap64_add_l, Z.add_assoc.
      * apply Z.mod_pos_bound. unfold uint64_modulus. lia.
      * rewrite Hself. simpl. apply list_lookup_insert_eq. lia.
    + rewrite (IHcnt v c0 Hv Hr); [reflexivity|].
      rewrite Hself. simpl. rewrite list_lookup_insert_ne; [exact Hc0|lia].
Qed.

Lemma handle_exits_not_logging ndebug exits : forall self vmcs,
  logging ndebug self = false ->
  fst (handle_exits ndebug self vmcs exits) = self.
Proof.
  induction exits as [|x exits IH]; intros self vmcs Hlog; [reflexivity|].
  cbn [handle_exits].
  rewrite (handle_self_not_logging ndebug self _ Hlog) at 1.
  now apply IH.
Qed.

(** C5. Starting from counters that are all zero: with logging on, after
    any run of exits the table keeps its 256 entries and each counter [v]
    in 0..255 holds the number of exits that delivered vector [v], reduced
    modulo 2^64 as the counters are [uint64_t]; for a run of fewer than
    2^64 exits that is exactly the number of such exits.  With logging off
    the counters are all still zero, however many exits were handled. *)
Theorem C5_per_vector_counters ndebug self vmcs exits :
  m_log self = replicate 256 0 ->
  let s' := fst (handle_exits ndebug self vmcs exits) in
  (logging ndebug self = true ->
   length (m_log s') = 256%nat /\
   forall v, 0 <= v < 256 ->
     m_log s' !! Z.to_nat v = Some (wrap64 (exits_with_vector exits v)) /\
     (Z.of_nat (length exits) < uint64_modulus ->
      m_log s' !! Z.to_nat v = Some (exits_with_vector exits v))) /\
  (logging ndebug self = false -> m_log s' = replicate 256 0).
Proof.
  intros Hzero s'. split.
  - intros Hlog.
    assert (Hlen : length (m_log self) = 256%nat)
      by (rewrite Hzero; apply length_replicate).
    destruct (handle_exits_logging ndebug exits self vmcs Hlen Hlog)
      as [Hlen' Hcnt].
    split; [exact Hlen'|].
    intros v Hv. fold s' in Hcnt.
    assert (Hmod : m_log s' !! Z.to_nat v
                   = Some (wrap64 (exits_with_vector exits v))).
    { rewrite (Hcnt v 0 Hv).
      - now rewrite Z.add_0_l.
      - unfold uint64_modulus. lia.
      - rewrite Hzero. apply lookup_replicate_2. lia. }
    split; [exact Hmod|].
    intros Hbound. rewrite Hmod, wrap64_small; [reflexivity|].
    pose proof (exits_with_vector_bound exits v). lia.
  - intros Hlog. unfold s'.
    now rewrite (handle_exits_not_logging ndebug exits self vmcs Hlog).
Qed.

Lemma dump_log_loop_in_range (a : list Z) ixs : forall msg accessed,
  Forall (fun i => 0 <= i < Z.of_nat (length a)) ixs ->
  Forall (fun i => 0 <= i < Z.of_nat (length a)) accessed ->
  exists msg' accessed',
    dump_log_loop a ixs msg accessed = (Ret msg', accessed') /\
    Forall (fun i => 0 <= i < Z.of_nat (length a)) accessed'.
Proof.
  induction ixs as [|i ixs IH]; intros msg accessed Hixs Hacc; simpl.
  - eauto.
  - inversion Hixs as [|? ? Hi Hrest]; subst.
    destruct (at_in_range a i Hi) as (x & _ & ->).
    destruct (0 <? x).
    + apply IH; [exact Hrest|].
      apply Forall_app. split; [exact Hacc|]. repeat (constructor; [exact Hi|]). constructor.
    + apply IH; [exact Hrest|].
      apply Forall_app. split; [exact Hacc|]. repeat (constructor; [exact Hi|]). constructor.
Qed.

(** C9. The vector read by [handle] lies in 0..255, so on the 256-entry
    table the checked increment returns normally, and an
    [std::out_of_range] can leave [handle] only if a delegate threw it;
    [dump_log] returns normally and hands [at] only indices in 0..255. *)
Theorem C9_counter_index_in_bounds ndebug self vmcs :
  length (m_log self) = 256%nat ->
  let h := handle ndebug self vmcs in
  0 <= vector_get vmcs < 256 /\
  returns_normally (at_ (m_log self) (vector_get vmcs)) /\
  returns_normally (at_increment (m_log self) (vector_get vmcs)) /\
  (forall w, h_result h = Throw (out_of_range w) ->
     exists c, last (h_calls h) = Some c /\
               call_returned c = Throw (out_of_range w)) /\
  returns_normally (fst (dump_log self)) /\
  Forall (fun i => 0 <= i <= 255) (snd (dump_log self)).
Proof.
  intros Hlen h.
  pose proof (vector_get_range vmcs) as Hv.
  assert (Hin : 0 <= vector_get vmcs < Z.of_nat (length (m_log self)))
    by (rewrite Hlen; lia).
  split; [exact Hv|]. split.
  { destruct (at_in_range _ _ Hin) as (x & _ & Hx). now exists x. }
  split.
  { destruct (at_increment_in_range _ _ Hin) as (x & _ & Hx). eexists; eauto. }
  split.
  { intros w Hw.
    destruct (handle_dispatch ndebug self vmcs Hlen) as (Hcalls & _ & Hres).
    fold h in Hcalls, Hres. rewrite Hcalls. rewrite Hres in Hw.
    destruct (claimed _) as [[]|e] eqn:Hcl; try discriminate.
    injection Hw as ->. now apply dispatch_throw_last. }
  assert (Hseq : Forall (fun i => 0 <= i < Z.of_nat (length (m_log self)))
                   (seqZ 0 256)).
  { apply Forall_seqZ. intros i Hi. rewrite Hlen. lia. }
  destruct (dump_log_loop_in_range (m_log self) (seqZ 0 256)
              [bfdebug_lnbr; bfdebug_info "External interrupt counts";
               bfdebug_brk2] [] Hseq (List.Forall_nil _))
    as (msg' & accessed' & Hloop & Hacc).
  unfold dump_log. rewrite Hloop. simpl. split.
  - eexists; eauto.
  - eapply Forall_impl; [exact Hacc|]. intros i Hi. simpl in Hi.
    rewrite Hlen in Hi. lia.
Qed.

(** C10. With logging on, [handle] leaves the delivered vector's counter
    incremented (modulo 2^64) however the call ends; in particular when
    every delegate declines, [handle] leaves by the [std::runtime_error]
    and the object it leaves behind has the incremented counter. *)
Theorem C10_counter_kept_on_fatal_path ndebug self vmcs :
  length (m_log self) = 256%nat ->
  logging ndebug self = true ->
  let h := handle ndebug self vmcs in
  exists c,
    m_log self !! Z.to_nat (vector_get vmcs) = Some c /\
    m_log (h_self h) !! Z.to_nat (vector_get vmcs) = Some (wrap64 (c + 1)) /\
    (forall v1 i1,
       all_decline (m_handlers self) vmcs (mk_info (vector_get vmcs)) v1 i1 ->
       h_result h =
         Throw (runtime_error
                  (String.append "Unhandled interrupt vector: "
                     (to_string (vector i1))))).
Proof.
  intros Hlen Hlog h.
  destruct (handle_self_logging ndebug self vmcs Hlen Hlog) as (c & Hc & Hself).
  fold h in Hself. exists c. split; [exact Hc|]. split.
  - rewrite Hself. simpl. apply list_lookup_insert_eq.
    pose proof (vector_get_range vmcs). lia.
  - intros v1 i1 Hall.
    destruct (handle_dispatch ndebug self vmcs Hlen) as (_ & _ & Hres).
    fold h in Hres.
    destruct (dispatch_declined_calls _ _ _ _ _ Hall) as [Hd _].
    rewrite Hd in Hres. exact Hres.
Qed.

(** *** Runs of the definitions *)

Example dump_log_after_four_exits :
  fst (dump_log
         (fst (handle_exits false (add_handler claim (enable_log create)) vmcs0
                 [0x80000022; 0x80000022; 0x800000C8; 0x80000022])))
  = Ret [bfdebug_lnbr; bfdebug_info "External interrupt counts"; bfdebug_brk2;
         bfdebug_subnhex "34" 3; bfdebug_subnhex "200" 1; bfdebug_lnbr].
Proof. vm_compute. reflexivity. Qed.

Example release_build_does_not_count :
  m_log (h_self (handle true (add_handler claim (enable_log create))
                   (set_vm_exit_interruption_information 0x80000022 vmcs0)))
  = replicate 256 0.
Proof. vm_compute. reflexivity. Qed.

Example declined_exit_is_fatal :
  h_result (handle false (add_handler decline create)
              (set_vm_exit_interruption_information 0x80000022 vmcs0))
  = Throw (runtime_error "Unhandled interrupt vector: 34").
Proof. reflexivity. Qed.

Example delegate_exception_propagates :
  h_result (handle false
              (add_handler (fun v i => (Throw (runtime_error "boom"), v, i))
                 (add_handler claim create)) vmcs0)
  = Throw (runtime_error "boom").
Proof. reflexivity. Qed.

(** *** The theorems at concrete inputs *)

Lemma C1_most_recently_registered_first_witness :
  let self := add_handler decline (add_handler claim (enable_log create)) in
  let h := handle false self
             (set_vm_exit_interruption_information 0x80000022 vmcs0) in
  m_handlers self = [decline; claim] /\
  h_result h = Ret true /\
  map callee (h_calls h) = [decline; claim].
Proof.
  pose proof (C1_most_recently_registered_first false (enable_log create)
                claim decline [] []
                (set_vm_exit_interruption_information 0x80000022 vmcs0)
                eq_refl) as H.
  cbv zeta in H. destruct H as (Hchain & _ & _ & Honly).
  split; [exact Hchain|].
  eapply Honly.
  - eapply all_decline_cons; [reflexivity|apply all_decline_nil].
  - reflexivity.
Defined.

Lemma C2_unclaimed_interrupt_does_not_return_witness :
  h_result (handle false create
              (set_vm_exit_interruption_information 0x800000C8 vmcs0))
  = Throw (runtime_error "Unhandled interrupt vector: 200").
Proof.
  exact (proj2 (proj2 (C2_unclaimed_interrupt_does_not_return false create
                         (set_vm_exit_interruption_information 0x800000C8
                            vmcs0)))
           eq_refl eq_refl).
Defined.

Lemma C3_dispatch_stops_at_first_claim_witness :
  let self := mk false (replicate 256 0) [decline; claim; decline; claim] in
  let h := handle false self vmcs0 in
  h_result h = Ret true /\
  map callee (h_calls h) = [decline; claim] /\
  length (h_calls h) = 2%nat /\
  h_vmcs h = vmcs0.
Proof.
  apply (C3_dispatch_stops_at_first_claim false
           (mk false (replicate 256 0) [decline; claim; decline; claim])
           [decline] claim [decline; claim] vmcs0
           vmcs0 (mk_info 0) vmcs0 (mk_info 0)).
  - reflexivity.
  - reflexivity.
  - eapply all_decline_cons; [reflexivity|apply all_decline_nil].
  - reflexivity.
Defined.

Lemma C5_per_vector_counters_witness :
  let exits := [0x80000022; 0x80000022; 0x800000C8; 0x80000022] in
  let on := fst (handle_exits false (add_handler claim (enable_log create))
                   vmcs0 exits) in
  let off := fst (handle_exits false (add_handler claim create) vmcs0 exits) in
  (m_log on !! 34%nat = Some 3 /\ m_log on !! 200%nat = Some 1 /\
   m_log on !! 0%nat = Some 0 /\ m_log on !! 255%nat = Some 0) /\
  m_log off = replicate 256 0.
Proof.
  cbv zeta.
  pose proof (C5_per_vector_counters false
                (add_handler claim (enable_log create)) vmcs0
                [0x80000022; 0x80000022; 0x800000C8; 0x80000022] eq_refl)
    as Hon.
  pose proof (C5_per_vector_counters false (add_handler claim create) vmcs0
                [0x80000022; 0x80000022; 0x800000C8; 0x80000022] eq_refl)
    as Hoff.
  cbv zeta in Hon, Hoff.
  destruct Hon as [Hon _]. destruct Hoff as [_ Hoff].
  assert (Hb : Z.of_nat 4 < uint64_modulus) by (unfold uint64_modulus; lia).
  destruct (Hon eq_refl) as [_ Hcnt].
  split; [|exact (Hoff eq_refl)].
  split; [|split; [|split]].
  - apply (Hcnt 34); [lia|exact Hb].
  - apply (Hcnt 200); [lia|exact Hb].
  - apply (Hcnt 0); [lia|exact Hb].
  - apply (Hcnt 255); [lia|exact Hb].
Defined.

Lemma C9_counter_index_in_bounds_witness :
  let vmcs := set_vm_exit_interruption_information 0x800000FF vmcs0 in
  vmcs_n.vm_exit_interruption_information.vector.get vmcs = 255 /\
  returns_normally (at_increment (m_log create) 255) /\
  returns_normally (fst (dump_log create)) /\
  Forall (fun i => 0 <= i <= 255) (snd (dump_log create)).
Proof.
  cbv zeta.
  pose proof (C9_counter_index_in_bounds false create
                (set_vm_exit_interruption_information 0x800000FF vmcs0)
                eq_refl) as H.
  cbv zeta in H. destruct H as (_ & _ & Hinc & _ & Hdump & Hacc).
  split; [reflexivity|]. split; [exact Hinc|]. split; [exact Hdump|exact Hacc].
Defined.

Lemma C10_counter_kept_on_fatal_path_witness :
  let vmcs := set_vm_exit_interruption_information 0x800000C8 vmcs0 in
  let h := handle false (enable_log create) vmcs in
  h_result h = Throw (runtime_error "Unhandled interrupt vector: 200") /\
  m_log (h_self h) !! 200%nat = Some 1.
Proof.
  cbv zeta.
  destruct (C10_counter_kept_on_fatal_path false (enable_log create)
              (set_vm_exit_interruption_information 0x800000C8 vmcs0)
              eq_refl eq_refl) as (c & Hc & Hinc & Hfatal).
  split.
  - apply (Hfatal _ _ (all_decline_nil _ _)).
  - assert (Hc0 : c = 0) by (vm_compute in Hc; congruence).
    rewrite Hc0 in Hinc. exact Hinc.
Defined.

End external_interrupt_facts.

(* ------------------------------------------------------------------------- *)
(** ** The control-register handler                                           *)
(* ------------------------------------------------------------------------- *)

Module control_register_facts.

Import control_register_handler.

Lemma run_chain_first_call d ds write_back info vmcs :
  exists rest,
    h_calls (run_chain (d :: ds) write_back info vmcs)
    = mk_call d vmcs info :: rest.
Proof.
  unfold run_chain.
  destruct (dispatch_first_call d ds vmcs info) as [rest Hrest].
  exists rest. destruct (claimed _) as [[]|]; exact Hrest.
Qed.

(** A claimed chain: the write-back and the advance are applied to the state
    the claiming call left, each unless the descriptor says to skip it. *)
Lemma run_chain_claimed ds write_back info vmcs c v2 i2 :
  In c (h_calls (run_chain ds write_back info vmcs)) ->
  callee c (arg_vmcs c) (arg_info c) = (Ret true, v2, i2) ->
  h_result (run_chain ds write_back info vmcs) = Ret true /\
  h_vmcs (run_chain ds write_back info vmcs) =
    (let v1 := if ignore_write i2 then v2 else write_back i2 v2 in
     if ignore_advance i2 then v1 else advance v1).
Proof.
  intros Hin Hc.
  assert (Hin' : In c (calls (dispatch ds vmcs info))).
  { unfold run_chain in Hin. destruct (claimed _) as [[]|]; exact Hin. }
  pose proof (dispatch_claiming_call ds vmcs info c v2 i2 Hin' Hc) as Hd.
  unfold run_chain. rewrite Hd. simpl. auto.
Qed.

(** C6. On an exit whose register and direction have a chain, the first
    delegate of that chain is called on the machine state of the exit with
    a descriptor holding the defaults of the direction: the source register
    and the CR0 (CR4) read shadow for a write to CR0 (CR4), the guest CR3
    field and 0 for a read of CR3, the source register and 0 for a write to
    CR3; both flags are false. *)
Theorem C6_descriptor_defaults self vmcs a d ds :
  decode vmcs = Some a ->
  chain_of a self = d :: ds ->
  exists i0 rest,
    h_calls (handle self vmcs) = mk_call d vmcs i0 :: rest /\
    ignore_write i0 = false /\
    ignore_advance i0 = false /\
    match a with
    | wrcr0 =>
        val i0 = save_state_gpr vmcs (general_purpose_register vmcs) /\
        shadow i0 = fld_cr0_read_shadow vmcs
    | wrcr4 =>
        val i0 = save_state_gpr vmcs (general_purpose_register vmcs) /\
        shadow i0 = fld_cr4_read_shadow vmcs
    | rdcr3 => val i0 = fld_guest_cr3 vmcs /\ shadow i0 = 0
    | wrcr3 =>
        val i0 = save_state_gpr vmcs (general_purpose_register vmcs) /\
        shadow i0 = 0
    end.
Proof.
  intros Hdec Hchain. unfold handle. rewrite Hdec.
  destruct a; simpl in Hchain;
    unfold handle_wrcr0, handle_rdcr3, handle_wrcr3, handle_wrcr4;
    rewrite Hchain;
    match goal with
    | |- context [run_chain _ ?wb ?i _] =>
        destruct (run_chain_first_call d ds wb i vmcs) as [rest Hrest];
        exists i, rest
    end;
    (split; [exact Hrest|]); simpl; auto.
Qed.

(** C7. On a write-CR0 exit, when a delegate called by [handle] returns
    true leaving the descriptor at value 0x80000011, shadow 0x00000001 and
    both flags false, [handle] returns true, the guest CR0 field is
    0x80000011, the CR0 read shadow is 0x00000001, and the instruction
    pointer is the one the delegate left plus the instruction length
    (modulo 2^64). *)
Theorem C7_wrcr0_apply self vmcs c v2 :
  decode vmcs = Some wrcr0 ->
  In c (h_calls (handle self vmcs)) ->
  callee c (arg_vmcs c) (arg_info c)
  = (Ret true, v2, mk_info 0x80000011 0x00000001 false false) ->
  let h := handle self vmcs in
  h_result h = Ret true /\
  fld_guest_cr0 (h_vmcs h) = 0x80000011 /\
  fld_cr0_read_shadow (h_vmcs h) = 0x00000001 /\
  save_state_rip (h_vmcs h)
  = wrap64 (save_state_rip v2 + fld_vm_exit_instruction_length v2).
Proof.
  intros Hdec Hin Hc h. unfold h in *. unfold handle in *.
  rewrite Hdec in *. unfold handle_wrcr0 in *.
  destruct (run_chain_claimed _ _ _ _ _ _ _ Hin Hc) as [-> ->].
  simpl. auto.
Qed.

(** C8. On any control-register exit, when a delegate called by [handle]
    returns true with [ignore_write] set, [handle] returns true and the
    machine state it leaves is the one the delegate left, apart from the
    advance of the instruction pointer (made unless [ignore_advance] is
    set): the control registers, the read shadows and the general-purpose
    registers are as the delegate left them. *)
Theorem C8_ignore_write_honored self vmcs c v2 i2 :
  In c (h_calls (handle self vmcs)) ->
  callee c (arg_vmcs c) (arg_info c) = (Ret true, v2, i2) ->
  ignore_write i2 = true ->
  let h := handle self vmcs in
  h_result h = Ret true /\
  h_vmcs h = (if ignore_advance i2 then v2 else advance v2) /\
  fld_guest_cr0 (h_vmcs h) = fld_guest_cr0 v2 /\
  fld_guest_cr3 (h_vmcs h) = fld_guest_cr3 v2 /\
  fld_guest_cr4 (h_vmcs h) = fld_guest_cr4 v2 /\
  fld_cr0_read_shadow (h_vmcs h) = fld_cr0_read_shadow v2 /\
  fld_cr4_read_shadow (h_vmcs h) = fld_cr4_read_shadow v2 /\
  save_state_gpr (h_vmcs h) = save_state_gpr v2.
Proof.
  intros Hin Hc Hig h.
  assert (H : h_result h = Ret true /\
              h_vmcs h = (if ignore_advance i2 then v2 else advance v2)).
  { unfold h in *. unfold handle in *.
    destruct (decode vmcs) as [[]|]; simpl in Hin; [| | | |tauto];
      unfold handle_wrcr0, handle_rdcr3, handle_wrcr3, handle_wrcr4 in *;
      destruct (run_chain_claimed _ _ _ _ _ _ _ Hin Hc) as [-> ->];
      simpl; rewrite Hig; auto. }
  destruct H as [Hres Hv]. split; [exact Hres|]. split; [exact Hv|].
  rewrite Hv. destruct (ignore_advance i2); simpl; auto 10.
Qed.

(** *** Runs of the definitions *)

Example unclaimed_wrcr0_returns_false :
  h_result (handle create wrcr0_exit) = Ret false /\
  h_vmcs (handle create wrcr0_exit) = wrcr0_exit.
Proof. split; reflexivity. Qed.

Example rdcr3_default_reaches_register :
  let vmcs := mk_vmcs 0 0 0 3 0x513 0 0x1000 0 0 0 0x4000 (fun _ => 0) in
  let h := handle (add_rdcr3_handler (fun v i => (Ret true, v, i)) create)
             vmcs in
  decode vmcs = Some rdcr3 /\
  save_state_gpr (h_vmcs h) 5 = 0x1000 /\
  save_state_rip (h_vmcs h) = 0x4003.
Proof. repeat split. Qed.

(** *** The theorems at concrete inputs *)

Lemma C6_descriptor_defaults_witness :
  exists i0 rest,
    h_calls (handle (add_wrcr0_handler set_cr0_view create) wrcr0_exit)
    = mk_call set_cr0_view wrcr0_exit i0 :: rest /\
    ignore_write i0 = false /\
    ignore_advance i0 = false /\
    val i0 = 0x80000033 /\
    shadow i0 = 0x31.
Proof.
  exact (C6_descriptor_defaults (add_wrcr0_handler set_cr0_view create)
           wrcr0_exit wrcr0 set_cr0_view [] eq_refl eq_refl).
Defined.

Lemma C7_wrcr0_apply_witness :
  let h := handle (add_wrcr0_handler set_cr0_view create) wrcr0_exit in
  h_result h = Ret true /\
  fld_guest_cr0 (h_vmcs h) = 0x80000011 /\
  fld_cr0_read_shadow (h_vmcs h) = 0x00000001 /\
  save_state_rip (h_vmcs h) = 0xFFFF8003.
Proof.
  apply (C7_wrcr0_apply (add_wrcr0_handler set_cr0_view create) wrcr0_exit
           (mk_call set_cr0_view wrcr0_exit
              (mk_info 0x80000033 0x31 false false))
           wrcr0_exit).
  - reflexivity.
  - left. reflexivity.
  - reflexivity.
Defined.

Lemma C8_ignore_write_honored_witness :
  let h := handle (add_wrcr0_handler claim_ignoring_write create) wrcr0_exit in
  h_result h = Ret true /\
  h_vmcs h = advance wrcr0_exit /\
  fld_guest_cr0 (h_vmcs h) = 0x80000031 /\
  fld_guest_cr3 (h_vmcs h) = 0x1000 /\
  fld_guest_cr4 (h_vmcs h) = 0x2000 /\
  fld_cr0_read_shadow (h_vmcs h) = 0x31 /\
  fld_cr4_read_shadow (h_vmcs h) = 0x2000 /\
  save_state_gpr (h_vmcs h) = save_state_gpr wrcr0_exit.
Proof.
  apply (C8_ignore_write_honored
           (add_wrcr0_handler claim_ignoring_write create) wrcr0_exit
           (mk_call claim_ignoring_write wrcr0_exit
              (mk_info 0x80000033 0x31 false false))
           wrcr0_exit (mk_info 0x80000033 0x31 true false)).
  - left. reflexivity.
  - reflexivity.
  - reflexivity.
Defined.

End control_register_facts.

(* ------------------------------------------------------------------------- *)
(** ** Further properties of handler chains                                   *)
(* ------------------------------------------------------------------------- *)

Section call_threading_facts.

Context {info_t : Type}.

Lemma dispatch_threaded (ds : list (handler_delegate_t info_t)) : forall v i,
  threaded v i (calls (dispatch ds v i))
    (vmcs_after (dispatch ds v i)) (info_after (dispatch ds v i)).
Proof.
  induction ds as [|d ds IH]; intros v i; simpl; [auto|].
  destruct (d v i) as [[[[]|e] v'] i'] eqn:Hd; simpl;
    unfold call_vmcs_out, call_info_out; simpl; rewrite Hd; simpl; auto.
Qed.

Lemma threaded_last (cs : list (call_t info_t)) : forall v i v' i' c,
  threaded v i cs v' i' ->
  last cs = Some c ->
  v' = call_vmcs_out c /\ i' = call_info_out c.
Proof.
  induction cs as [|c0 cs IH]; intros v i v' i' c Hth Hl; [discriminate|].
  simpl in Hth. destruct Hth as (_ & _ & Hth).
  destruct cs as [|c1 cs].
  - simpl in Hl. injection Hl as <-. simpl in Hth. tauto.
  - apply (IH _ _ _ _ c Hth). exact Hl.
Qed.

(** A chain in which [pre] declines and the next delegate [d] throws: the
    dispatch throws the same exception, and the calls made are those of
    [pre] followed by the one call of [d]. *)
Lemma dispatch_first_throw (pre post : list (handler_delegate_t info_t))
    (d : handler_delegate_t info_t) v i v1 i1 e v2 i2 :
  all_decline pre v i v1 i1 ->
  d v1 i1 = (Throw e, v2, i2) ->
  dispatch (pre ++ d :: post) v i =
    mk_dispatched (Throw e) v2 i2
      (calls (dispatch pre v i) ++ [mk_call d v1 i1]).
Proof.
  intros Hpre Hd.
  rewrite (dispatch_all_decline _ _ _ _ _ _ Hpre). simpl. now rewrite Hd.
Qed.

(** When every call made returned false the whole chain was walked. *)
Lemma dispatch_all_false (ds : list (handler_delegate_t info_t)) : forall v i,
  (forall c, In c (calls (dispatch ds v i)) -> call_returned c = Ret false) ->
  claimed (dispatch ds v i) = Ret false /\
  map callee (calls (dispatch ds v i)) = ds.
Proof.
  induction ds as [|d ds IH]; intros v i; simpl; [auto|].
  destruct (d v i) as [[[[]|e] v'] i'] eqn:Hd; simpl; intros Hall.
  - specialize (Hall _ (or_introl eq_refl)).
    unfold call_returned in Hall. simpl in Hall. rewrite Hd in Hall.
    discriminate.
  - destruct (IH v' i') as [-> ->]; [|auto].
    intros c Hc. apply Hall. now right.
  - specialize (Hall _ (or_introl eq_refl)).
    unfold call_returned in Hall. simpl in Hall. rewrite Hd in Hall.
    discriminate.
Qed.

End call_threading_facts.

(* ------------------------------------------------------------------------- *)
(** ** Further properties of the external-interrupt handler                   *)
(* ------------------------------------------------------------------------- *)

Module external_interrupt_more.

Import external_interrupt_handler.
Import external_interrupt_facts.

Lemma handle_calls_dispatch ndebug self vmcs :
  h_calls (handle ndebug self vmcs) = [] \/
  (h_calls (handle ndebug self vmcs)
   = calls (dispatch (m_handlers self) vmcs (mk_info (vector_get vmcs))) /\
   h_vmcs (handle ndebug self vmcs)
   = vmcs_after (dispatch (m_handlers self) vmcs (mk_info (vector_get vmcs)))).
Proof.
  unfold handle.
  destruct (if logging ndebug self then _ else _) as [log'|e]; [|now left].
  right. simpl. destruct (claimed _) as [[]|]; auto.
Qed.

(** X1. [handle] returns a value only when a delegate claimed the exit: the
    value is then true, the last call made is the one that returned true,
    every call before it returned false, and the machine state is the one
    that last call left.  In particular [handle] never returns false. *)
Theorem handle_returns_only_on_claim ndebug self vmcs b :
  let h := handle ndebug self vmcs in
  h_result h = Ret b ->
  b = true /\
  exists c,
    last (h_calls h) = Some c /\
    call_returned c = Ret true /\
    h_vmcs h = call_vmcs_out c /\
    forall k c', h_calls h !! k = Some c' ->
      (S k < length (h_calls h))%nat -> call_returned c' = Ret false.
Proof.
  intros h Hres. unfold h, handle in *.
  destruct (if logging ndebug self then _ else _) as [log'|e]; [|discriminate].
  simpl in *.
  set (r := dispatch (m_handlers self) vmcs (mk_info (vector_get vmcs))) in *.
  destruct (claimed r) as [[]|e] eqn:Hcl; try discriminate.
  simpl in *. injection Hres as <-. split; [reflexivity|].
  destruct (dispatch_claimed_last _ _ _ Hcl) as (c & Hlast & Hc).
  exists c. fold r in Hlast. split; [exact Hlast|]. split; [exact Hc|]. split.
  - pose proof (dispatch_threaded (m_handlers self) vmcs
                  (mk_info (vector_get vmcs))) as Hth.
    fold r in Hth. now destruct (threaded_last _ _ _ _ _ _ Hth Hlast).
  - intros k c' Hk Hlt. eapply dispatch_earlier_calls_false; eauto.
Qed.

(** X2. No exception of a delegate is caught: when the delegates in front
    of [d] decline and [d] throws, [handle] leaves by that same exception,
    nothing positioned after [d] is called, the machine state is the one
    [d] left, and with logging on the counter of the vector has been
    incremented all the same. *)
Theorem handle_propagates_delegate_exception
    ndebug self pre d post vmcs v1 i1 e v2 i2 :
  length (m_log self) = 256%nat ->
  m_handlers self = pre ++ d :: post ->
  all_decline pre vmcs (mk_info (vector_get vmcs)) v1 i1 ->
  d v1 i1 = (Throw e, v2, i2) ->
  let h := handle ndebug self vmcs in
  h_result h = Throw e /\
  map callee (h_calls h) = pre ++ [d] /\
  h_vmcs h = v2 /\
  (logging ndebug self = true ->
   counter (h_self h) (vector_get vmcs)
   = wrap64 (counter self (vector_get vmcs) + 1)).
Proof.
  intros Hlen Hchain Hpre Hd h.
  destruct (handle_dispatch ndebug self vmcs Hlen) as (Hcalls & Hvmcs & Hres).
  fold h in Hcalls, Hvmcs, Hres.
  rewrite Hchain in Hcalls, Hvmcs, Hres.
  rewrite (dispatch_first_throw _ post _ _ _ _ _ _ _ _ Hpre Hd)
    in Hcalls, Hvmcs, Hres.
  simpl in Hcalls, Hvmcs, Hres.
  destruct (dispatch_declined_calls _ _ _ _ _ Hpre) as [_ Hmap].
  split; [exact Hres|]. split.
  { rewrite Hcalls, map_app, Hmap. reflexivity. }
  split; [exact Hvmcs|].
  intros Hlog.
  destruct (handle_self_logging ndebug self vmcs Hlen Hlog) as (c & Hc & Hself).
  fold h in Hself. unfold counter. rewrite Hself, Hc. simpl.
  rewrite list_lookup_insert_eq; [reflexivity|].
  pose proof (vector_get_range vmcs). lia.
Qed.

(** X3. [handle] itself never writes the machine state: the first delegate
    is handed the state of the exit and the delivered vector, every later
    one what the delegate before it left, and the state [handle] ends in is
    what the last call left (the state of the exit when no call was made).
    When every call made returned false, the exception names the vector of
    the descriptor as the delegates left it. *)
Theorem handle_threads_state ndebug self vmcs :
  length (m_log self) = 256%nat ->
  let h := handle ndebug self vmcs in
  exists i',
    threaded vmcs (mk_info (vector_get vmcs)) (h_calls h) (h_vmcs h) i' /\
    ((forall c, In c (h_calls h) -> call_returned c = Ret false) ->
     map callee (h_calls h) = m_handlers self /\
     h_result h =
       Throw (runtime_error
                (String.append "Unhandled interrupt vector: "
                   (to_string (vector i'))))).
Proof.
  intros Hlen h.
  destruct (handle_dispatch ndebug self vmcs Hlen) as (Hcalls & Hvmcs & Hres).
  fold h in Hcalls, Hvmcs, Hres.
  set (r := dispatch (m_handlers self) vmcs (mk_info (vector_get vmcs))) in *.
  exists (info_after r). split.
  - rewrite Hcalls, Hvmcs. apply dispatch_threaded.
  - intros Hall. rewrite Hcalls in Hall |- *.
    destruct (dispatch_all_false _ _ _ Hall) as [Hcl Hmap].
    fold r in Hcl, Hmap. split; [exact Hmap|].
    rewrite Hres, Hcl. reflexivity.
Qed.

(** X4. Whatever the outcome, [handle] leaves the handler list and the
    logging switch as they were, keeps the size of the counter table, and
    touches no counter other than the one of the delivered vector; with
    logging off it leaves the whole object as it was. *)
Theorem handle_object_frame ndebug self vmcs :
  let h := handle ndebug self vmcs in
  m_handlers (h_self h) = m_handlers self /\
  m_log_enabled (h_self h) = m_log_enabled self /\
  length (m_log (h_self h)) = length (m_log self) /\
  (forall j, j <> Z.to_nat (vector_get vmcs) ->
     m_log (h_self h) !! j = m_log self !! j) /\
  (logging ndebug self = false -> h_self h = self).
Proof.
  intros h. unfold h. clear h.
  destruct (logging ndebug self) eqn:Hlog.
  - unfold handle. rewrite Hlog. unfold at_increment.
    destruct (at_ (m_log self) (vector (mk_info (vector_get vmcs))))
      as [x|e]; simpl.
    + destruct (claimed _) as [[]|]; simpl;
        (split; [reflexivity|]; split; [reflexivity|];
         split; [apply length_insert|];
         split; [intros j Hj; apply list_lookup_insert_ne; congruence
                |discriminate]).
    + split; [reflexivity|]. split; [reflexivity|]. split; [reflexivity|].
      split; [reflexivity|discriminate].
  - rewrite (handle_self_not_logging ndebug self vmcs Hlog). auto 10.
Qed.

(** *** The exiting controls *)

Abbreviation pin_controls := fld_pin_based_vm_execution_controls.
Abbreviation exit_controls := fld_vm_exit_controls.

Lemma fits_iff_high_bits_clear x w :
  0 <= w ->
  (0 <= x < 2 ^ w <-> forall n, w <= n -> Z.testbit x n = false).
Proof.
  intros Hw. split.
  - intros Hx n Hn. rewrite <- (Z.mod_small x (2 ^ w)) by exact Hx.
    apply Z.mod_pow2_bits_high. lia.
  - intros Hhigh.
    assert (Heq : x = x mod 2 ^ w).
    { apply Z.bits_inj'. intros n Hn.
      destruct (Z.lt_ge_cases n w) as [Hlt|Hge].
      - now rewrite Z.mod_pow2_bits_low.
      - rewrite Z.mod_pow2_bits_high by lia. now apply Hhigh. }
    rewrite Heq. apply Z.mod_pos_bound. now apply Z.pow_pos_nonneg.
Qed.

Lemma set_bit_other x k n :
  0 <= k -> n <> k -> Z.testbit (Z.lor x (2 ^ k)) n = Z.testbit x n.
Proof.
  intros Hk Hn. rewrite Z.lor_spec, Z.pow2_bits_eqb by exact Hk.
  destruct (Z.eqb_spec k n); [congruence|]. apply orb_false_r.
Qed.

Lemma clear_bit_other x k n :
  0 <= k -> n <> k ->
  Z.testbit (Z.land x (Z.lnot (2 ^ k))) n = Z.testbit x n.
Proof.
  intros Hk Hn. destruct (Z.lt_ge_cases n 0) as [Hneg|Hpos].
  - now rewrite !Z.testbit_neg_r.
  - rewrite Z.land_spec, Z.lnot_spec, Z.pow2_bits_eqb by assumption.
    destruct (Z.eqb_spec k n); [congruence|]. apply andb_true_r.
Qed.

Lemma set_bit_fits x k w :
  0 <= k < w -> 0 <= x < 2 ^ w -> 0 <= Z.lor x (2 ^ k) < 2 ^ w.
Proof.
  intros Hk Hx. apply fits_iff_high_bits_clear; [lia|].
  intros n Hn. rewrite set_bit_other by lia.
  apply (proj1 (fits_iff_high_bits_clear x w ltac:(lia)) Hx n Hn).
Qed.

Lemma clear_bit_fits x k w :
  0 <= k < w -> 0 <= x < 2 ^ w -> 0 <= Z.land x (Z.lnot (2 ^ k)) < 2 ^ w.
Proof.
  intros Hk Hx. apply fits_iff_high_bits_clear; [lia|].
  intros n Hn. rewrite clear_bit_other by lia.
  apply (proj1 (fits_iff_high_bits_clear x w ltac:(lia)) Hx n Hn).
Qed.

Lemma lor_after_any x m :
  Z.lor (Z.lor x m) m = Z.lor x m /\
  Z.lor (Z.land x (Z.lnot m)) m = Z.lor x m.
Proof.
  split; apply Z.bits_inj'; intros n Hn;
    repeat first [rewrite Z.lor_spec | rewrite Z.land_spec
                 | rewrite Z.lnot_spec by exact Hn];
    destruct (Z.testbit x n), (Z.testbit m n); reflexivity.
Qed.

Lemma land_lnot_after_any x m :
  Z.land (Z.land x (Z.lnot m)) (Z.lnot m) = Z.land x (Z.lnot m) /\
  Z.land (Z.lor x m) (Z.lnot m) = Z.land x (Z.lnot m).
Proof.
  split; apply Z.bits_inj'; intros n Hn;
    repeat first [rewrite Z.lor_spec | rewrite Z.land_spec
                 | rewrite Z.lnot_spec by exact Hn];
    destruct (Z.testbit x n), (Z.testbit m n); reflexivity.
Qed.

Lemma run_exiting_call_unfold c v :
  run_exiting_call c v =
    set_vm_exit_controls
      (match c with
       | call_enable_exiting => Z.lor (exit_controls v) (2 ^ 15)
       | call_disable_exiting => Z.land (exit_controls v) (Z.lnot (2 ^ 15))
       end)
      (set_pin_based_vm_execution_controls
         (match c with
          | call_enable_exiting => Z.lor (pin_controls v) (2 ^ 0)
          | call_disable_exiting => Z.land (pin_controls v) (Z.lnot (2 ^ 0))
          end) v).
Proof. destruct c; reflexivity. Qed.

(** X5. [enable_exiting] and [disable_exiting] change nothing but bit 0 of
    the pin-based controls and bit 15 of the VM-exit controls: putting the
    two fields back restores the machine state, every other bit of the two
    fields reads as before, and fields that fit in 32 bits still do. *)
Theorem exiting_calls_frame c v :
  0 <= pin_controls v < 2 ^ 32 ->
  0 <= exit_controls v < 2 ^ 32 ->
  let v' := run_exiting_call c v in
  set_pin_based_vm_execution_controls (pin_controls v)
    (set_vm_exit_controls (exit_controls v) v') = v /\
  (forall n, n <> 0 ->
     Z.testbit (pin_controls v') n = Z.testbit (pin_controls v) n) /\
  (forall n, n <> 15 ->
     Z.testbit (exit_controls v') n = Z.testbit (exit_controls v) n) /\
  0 <= pin_controls v' < 2 ^ 32 /\
  0 <= exit_controls v' < 2 ^ 32.
Proof.
  intros Hp He v'. unfold v'. rewrite run_exiting_call_unfold.
  split; [destruct v; reflexivity|].
  destruct c; cbn [fld_pin_based_vm_execution_controls fld_vm_exit_controls
                   set_pin_based_vm_execution_controls set_vm_exit_controls].
  - split; [intros n Hn; apply set_bit_other; lia|].
    split; [intros n Hn; apply set_bit_other; lia|].
    split; apply set_bit_fits; lia.
  - split; [intros n Hn; apply clear_bit_other; lia|].
    split; [intros n Hn; apply clear_bit_other; lia|].
    split; apply clear_bit_fits; lia.
Qed.

Lemma run_exiting_call_absorbs c c' v :
  run_exiting_call c (run_exiting_call c' v) = run_exiting_call c v.
Proof.
  rewrite !run_exiting_call_unfold.
  destruct v as [p e ? ? ? ? ? ? ? ? ? ?].
  unfold set_vm_exit_controls, set_pin_based_vm_execution_controls.
  cbn [fld_pin_based_vm_execution_controls fld_vm_exit_controls
       fld_vm_exit_interruption_information fld_vm_exit_instruction_length
       fld_exit_qualification fld_guest_cr0 fld_guest_cr3 fld_guest_cr4
       fld_cr0_read_shadow fld_cr4_read_shadow save_state_rip save_state_gpr].
  destruct c, c'; f_equal;
    first [apply lor_after_any | apply land_lnot_after_any].
Qed.

(** X6. A call of [enable_exiting] or [disable_exiting] overrides whatever
    calls of the two came before it: the machine state after any run of
    calls is the state the last call alone gives from the initial state. *)
Theorem exiting_calls_last_wins cs c v :
  run_exiting_calls (cs ++ [c]) v = run_exiting_call c v.
Proof.
  revert v. induction cs as [|c' cs IH]; intros v; [reflexivity|].
  change (run_exiting_calls ((c' :: cs) ++ [c]) v)
    with (run_exiting_calls (cs ++ [c]) (run_exiting_call c' v)).
  rewrite IH. apply run_exiting_call_absorbs.
Qed.

(** X7. Enabling and then disabling gives back the machine state exactly
    when both controls were disabled to begin with, and disabling then
    enabling gives it back when both were enabled. *)
Theorem exiting_round_trip v :
  (exiting_is_enabled v = false -> acknowledge_is_enabled v = false ->
   disable_exiting (enable_exiting v) = v) /\
  (exiting_is_enabled v = true -> acknowledge_is_enabled v = true ->
   enable_exiting (disable_exiting v) = v).
Proof.
  split; intros Hx Ha.
  - change (run_exiting_call call_disable_exiting
              (run_exiting_call call_enable_exiting v) = v).
    rewrite run_exiting_call_absorbs, run_exiting_call_unfold.
    destruct v as [p e ? ? ? ? ? ? ? ? ? ?].
    unfold vmcs_n.pin_based_vm_execution_controls.external_interrupt_exiting.is_enabled,
      vmcs_n.vm_exit_controls.acknowledge_interrupt_on_exit.is_enabled,
      vmcs_n.pin_based_vm_execution_controls.external_interrupt_exiting.from,
      vmcs_n.vm_exit_controls.acknowledge_interrupt_on_exit.from in Hx, Ha.
    cbn [fld_pin_based_vm_execution_controls fld_vm_exit_controls] in Hx, Ha.
    unfold set_vm_exit_controls, set_pin_based_vm_execution_controls.
    cbn [fld_pin_based_vm_execution_controls fld_vm_exit_controls
         fld_vm_exit_interruption_information fld_vm_exit_instruction_length
         fld_exit_qualification fld_guest_cr0 fld_guest_cr3 fld_guest_cr4
         fld_cr0_read_shadow fld_cr4_read_shadow save_state_rip save_state_gpr].
    f_equal; apply Z.bits_inj'; intros n Hn.
    + destruct (Z.eq_dec n 0) as [->|Hne].
      * rewrite Z.land_spec, Hx. reflexivity.
      * apply clear_bit_other; lia.
    + destruct (Z.eq_dec n 15) as [->|Hne].
      * rewrite Z.land_spec, Ha. reflexivity.
      * apply clear_bit_other; lia.
  - change (run_exiting_call call_enable_exiting
              (run_exiting_call call_disable_exiting v) = v).
    rewrite run_exiting_call_absorbs, run_exiting_call_unfold.
    destruct v as [p e ? ? ? ? ? ? ? ? ? ?].
    unfold vmcs_n.pin_based_vm_execution_controls.external_interrupt_exiting.is_enabled,
      vmcs_n.vm_exit_controls.acknowledge_interrupt_on_exit.is_enabled,
      vmcs_n.pin_based_vm_execution_controls.external_interrupt_exiting.from,
      vmcs_n.vm_exit_controls.acknowledge_interrupt_on_exit.from in Hx, Ha.
    cbn [fld_pin_based_vm_execution_controls fld_vm_exit_controls] in Hx, Ha.
    unfold set_vm_exit_controls, set_pin_based_vm_execution_controls.
    cbn [fld_pin_based_vm_execution_controls fld_vm_exit_controls
         fld_vm_exit_interruption_information fld_vm_exit_instruction_length
         fld_exit_qualification fld_guest_cr0 fld_guest_cr3 fld_guest_cr4
         fld_cr0_read_shadow fld_cr4_read_shadow save_state_rip save_state_gpr].
    f_equal; apply Z.bits_inj'; intros n Hn.
    + destruct (Z.eq_dec n 0) as [->|Hne].
      * rewrite Z.lor_spec, Hx. reflexivity.
      * apply set_bit_other; lia.
    + destruct (Z.eq_dec n 15) as [->|Hne].
      * rewrite Z.lor_spec, Ha. reflexivity.
      * apply set_bit_other; lia.
Qed.

(** *** The log and its dump *)

Lemma dump_log_loop_spec (a : list Z) ixs : forall msg accessed,
  Forall (fun i => 0 <= i < Z.of_nat (length a)) ixs ->
  dump_log_loop a ixs msg accessed =
    (Ret (msg ++
          map (fun i => bfdebug_subnhex (to_string i)
                          (default 0 (a !! Z.to_nat i)))
            (List.filter (fun i => 0 <? default 0 (a !! Z.to_nat i)) ixs)),
     accessed ++
     flat_map (fun i => if 0 <? default 0 (a !! Z.to_nat i)
                        then [i; i] else [i]) ixs).
Proof.
  induction ixs as [|i ixs IH]; intros msg accessed Hixs.
  - simpl. now rewrite !app_nil_r.
  - inversion Hixs as [|? ? Hi Hrest]; subst.
    destruct (at_in_range a i Hi) as (x & Hx & Hat).
    cbn [dump_log_loop List.filter map flat_map].
    rewrite Hat, Hx. change (default 0 (Some x)) with x.
    destruct (0 <? x); rewrite (IH _ _ Hrest);
      cbn [map]; rewrite ?Hx; now rewrite <- !app_assoc.
Qed.

Lemma seqZ_256_in_range (a : list Z) :
  length a = 256%nat ->
  Forall (fun i => 0 <= i < Z.of_nat (length a)) (seqZ 0 256).
Proof. intros Hlen. apply Forall_seqZ. intros i Hi. rewrite Hlen. lia. Qed.

(** X8. [dump_log] emits, between its three header lines and the closing
    line break, one line per vector whose counter is not zero, in ascending
    order of the vector, titled with the vector in decimal and carrying the
    counter; it reads every counter once and the non-zero ones twice. *)
Theorem dump_log_lists_nonzero_counters self :
  length (m_log self) = 256%nat ->
  dump_log self =
    (Ret ([bfdebug_lnbr; bfdebug_info "External interrupt counts";
           bfdebug_brk2] ++
          map (fun v => bfdebug_subnhex (to_string v) (counter self v))
            (List.filter (fun v => 0 <? counter self v) (seqZ 0 256)) ++
          [bfdebug_lnbr]),
     flat_map (fun v => if 0 <? counter self v then [v; v] else [v])
       (seqZ 0 256)).
Proof.
  intros Hlen. unfold dump_log.
  rewrite (dump_log_loop_spec _ _ _ _ (seqZ_256_in_range _ Hlen)).
  unfold counter. simpl app at 3. now rewrite <- app_assoc.
Qed.

(** After a run of fewer than 2^64 exits from zeroed counters with logging
    on, the table is the histogram of the delivered vectors. *)
Lemma counters_after_exits ndebug self vmcs exits :
  m_log self = replicate 256 0 ->
  logging ndebug self = true ->
  Z.of_nat (length exits) < uint64_modulus ->
  let s' := fst (handle_exits ndebug self vmcs exits) in
  length (m_log s') = 256%nat /\
  forall v, 0 <= v < 256 ->
    m_log s' !! Z.to_nat v = Some (exits_with_vector exits v).
Proof.
  intros Hzero Hlog Hbound s'.
  assert (Hlen : length (m_log self) = 256%nat)
    by (rewrite Hzero; apply length_replicate).
  destruct (handle_exits_logging ndebug exits self vmcs Hlen Hlog)
    as [Hlen' Hcnt].
  split; [exact Hlen'|]. intros v Hv. fold s' in Hcnt.
  rewrite (Hcnt v 0 Hv).
  - rewrite Z.add_0_l, wrap64_small; [reflexivity|].
    pose proof (exits_with_vector_bound exits v). lia.
  - unfold uint64_modulus. lia.
  - rewrite Hzero. apply lookup_replicate_2. lia.
Qed.

(** X9. Counting and dumping compose: after a run of fewer than 2^64 exits
    handled with logging on, starting from zeroed counters, [dump_log]
    lists exactly the vectors that were delivered at least once, in
    ascending order, each with the number of exits that delivered it. *)
Theorem dump_log_after_exits ndebug self vmcs exits :
  m_log self = replicate 256 0 ->
  logging ndebug self = true ->
  Z.of_nat (length exits) < uint64_modulus ->
  fst (dump_log (fst (handle_exits ndebug self vmcs exits))) =
    Ret ([bfdebug_lnbr; bfdebug_info "External interrupt counts";
          bfdebug_brk2] ++
         map (fun v => bfdebug_subnhex (to_string v)
                         (exits_with_vector exits v))
           (List.filter (fun v => 0 <? exits_with_vector exits v)
              (seqZ 0 256)) ++
         [bfdebug_lnbr]).
Proof.
  intros Hzero Hlog Hbound.
  destruct (counters_after_exits ndebug self vmcs exits Hzero Hlog Hbound)
    as [Hlen Hcnt].
  set (s' := fst (handle_exits ndebug self vmcs exits)) in *.
  assert (Hval : forall v, In v (seqZ 0 256) ->
            default 0 (m_log s' !! Z.to_nat v) = exits_with_vector exits v).
  { intros v Hv. apply list_elem_of_In, elem_of_seqZ in Hv.
    rewrite (Hcnt v) by lia. reflexivity. }
  unfold dump_log.
  rewrite (dump_log_loop_spec _ _ _ _ (seqZ_256_in_range _ Hlen)).
  cbn [fst]. f_equal. rewrite <- app_assoc. f_equal. f_equal.
  rewrite (filter_ext_in _ (fun v => 0 <? exits_with_vector exits v)).
  - apply map_ext_in. intros v Hv. apply filter_In in Hv as [Hv _].
    now rewrite (Hval v Hv).
  - intros v Hv. now rewrite (Hval v Hv).
Qed.

Lemma sum_map_add (f g : Z -> Z) (l : list Z) :
  foldr Z.add 0 (map (fun v => f v + g v) l)
  = foldr Z.add 0 (map f l) + foldr Z.add 0 (map g l).
Proof. induction l as [|x l IH]; simpl; lia. Qed.

Lemma one_vector_per_exit d :
  0 <= d < 256 ->
  foldr Z.add 0
    (map (fun v => if Z.eq_dec d v then 1 else 0) (seqZ 0 256)) = 1.
Proof.
  intros Hd.
  assert (Hall : forallb
            (fun d => foldr Z.add 0
                        (map (fun v => if Z.eq_dec d v then 1 else 0)
                           (seqZ 0 256)) =? 1)
            (seqZ 0 256) = true) by (vm_compute; reflexivity).
  rewrite forallb_forall in Hall.
  apply Z.eqb_eq, Hall, list_elem_of_In, elem_of_seqZ. lia.
Qed.

Lemma histogram_total exits :
  foldr Z.add 0 (map (exits_with_vector exits) (seqZ 0 256))
  = Z.of_nat (length exits).
Proof.
  induction exits as [|x exits IH].
  - vm_compute. reflexivity.
  - rewrite (map_ext _ _ (exits_with_vector_cons x exits)).
    rewrite (sum_map_add
               (fun v => if Z.eq_dec (delivered_vector x) v then 1 else 0)).
    rewrite IH, one_vector_per_exit by apply delivered_vector_range.
    simpl length. lia.
Qed.

(** X10. No exit goes uncounted or is counted twice: after a run of fewer
    than 2^64 exits handled with logging on, starting from zeroed counters,
    the counters add up to the number of exits handled. *)
Theorem counters_add_up_to_exits ndebug self vmcs exits :
  m_log self = replicate 256 0 ->
  logging ndebug self = true ->
  Z.of_nat (length exits) < uint64_modulus ->
  foldr Z.add 0 (m_log (fst (handle_exits ndebug self vmcs exits)))
  = Z.of_nat (length exits).
Proof.
  intros Hzero Hlog Hbound.
  destruct (counters_after_exits ndebug self vmcs exits Hzero Hlog Hbound)
    as [Hlen Hcnt].
  set (s' := fst (handle_exits ndebug self vmcs exits)) in *.
  assert (Htable : m_log s' = map (exits_with_vector exits) (seqZ 0 256)).
  { apply list_eq. intros k. rewrite list_lookup_fmap.
    destruct (Nat.lt_ge_cases k 256) as [Hk|Hk].
    - rewrite lookup_seqZ_lt by lia. rewrite Z.add_0_l.
      pose proof (Hcnt (Z.of_nat k) ltac:(lia)) as Hk'.
      rewrite Nat2Z.id in Hk'. rewrite Hk'. reflexivity.
    - rewrite lookup_seqZ_ge by lia.
      apply lookup_ge_None. lia. }
  rewrite Htable. apply histogram_total.
Qed.

(** X11. The destructor lets no exception escape; it emits nothing in a
    build with [ndebug] set or when the logging switch is off, and
    otherwise what [dump_log] emits. *)
Theorem destructor_never_throws ndebug self :
  length (m_log self) = 256%nat ->
  returns_normally (destructor ndebug self) /\
  (ndebug = true \/ m_log_enabled self = false ->
   destructor ndebug self = Ret []) /\
  (ndebug = false -> m_log_enabled self = true ->
   destructor ndebug self =
     Ret ([bfdebug_lnbr; bfdebug_info "External interrupt counts";
           bfdebug_brk2] ++
          map (fun v => bfdebug_subnhex (to_string v) (counter self v))
            (List.filter (fun v => 0 <? counter self v) (seqZ 0 256)) ++
          [bfdebug_lnbr])).
Proof.
  intros Hlen.
  assert (Hdump : fst (dump_log self) =
     Ret ([bfdebug_lnbr; bfdebug_info "External interrupt counts";
           bfdebug_brk2] ++
          map (fun v => bfdebug_subnhex (to_string v) (counter self v))
            (List.filter (fun v => 0 <? counter self v) (seqZ 0 256)) ++
          [bfdebug_lnbr])).
  { unfold dump_log.
    rewrite (dump_log_loop_spec _ _ _ _ (seqZ_256_in_range _ Hlen)).
    cbn [fst]. unfold counter. now rewrite <- app_assoc. }
  unfold destructor, logging. split; [|split].
  - destruct (negb ndebug && m_log_enabled self).
    + rewrite Hdump. eexists; reflexivity.
    + eexists; reflexivity.
  - intros [-> | ->]; [reflexivity|]. now rewrite andb_false_r.
  - intros -> ->. exact Hdump.
Qed.

(** X12. Registration order gives precedence: a delegate added last that
    claims the exit is the only one called, whatever chain was there; and
    a delegate added last that declines without touching the state or the
    descriptor leaves the outcome, the final state and the object as the
    chain without it gives them. *)
Theorem add_handler_takes_precedence ndebug self d vmcs :
  length (m_log self) = 256%nat ->
  let info := mk_info (vector_get vmcs) in
  let h := handle ndebug (add_handler d self) vmcs in
  let h0 := handle ndebug self vmcs in
  (forall v2 i2,
     d vmcs info = (Ret true, v2, i2) ->
     h_result h = Ret true /\ h_calls h = [mk_call d vmcs info] /\
     h_vmcs h = v2) /\
  (d vmcs info = (Ret false, vmcs, info) ->
   h_result h = h_result h0 /\
   h_vmcs h = h_vmcs h0 /\
   h_calls h = mk_call d vmcs info :: h_calls h0 /\
   h_self h = add_handler d (h_self h0)).
Proof.
  intros Hlen info h h0.
  assert (Hlen' : length (m_log (add_handler d self)) = 256%nat) by exact Hlen.
  destruct (handle_dispatch ndebug _ vmcs Hlen') as (Hcalls & Hvmcs & Hres).
  destruct (handle_dispatch ndebug self vmcs Hlen) as (Hcalls0 & Hvmcs0 & Hres0).
  fold h in Hcalls, Hvmcs, Hres. fold h0 in Hcalls0, Hvmcs0, Hres0.
  fold info in Hcalls, Hvmcs, Hres, Hcalls0, Hvmcs0, Hres0.
  cbn [add_handler m_handlers dispatch] in Hcalls, Hvmcs, Hres.
  split.
  - intros v2 i2 Hd. rewrite Hd in Hcalls, Hvmcs, Hres. auto.
  - intros Hd. rewrite Hd in Hcalls, Hvmcs, Hres.
    cbn [claimed vmcs_after info_after calls] in Hcalls, Hvmcs, Hres.
    split; [now rewrite Hres, Hres0|]. split; [now rewrite Hvmcs, Hvmcs0|].
    split; [now rewrite Hcalls, Hcalls0|].
    unfold h, h0. destruct (logging ndebug self) eqn:Hlog.
    + destruct (handle_self_logging ndebug self vmcs Hlen Hlog)
        as (c & Hc & ->).
      destruct (handle_self_logging ndebug (add_handler d self) vmcs Hlen' Hlog)
        as (c' & Hc' & ->).
      cbn [add_handler m_log] in Hc'. rewrite Hc in Hc'. injection Hc' as <-.
      reflexivity.
    + rewrite (handle_self_not_logging ndebug self vmcs Hlog).
      now rewrite (handle_self_not_logging ndebug (add_handler d self) vmcs Hlog).
Qed.

(** *** The theorems at concrete inputs *)

Lemma handle_returns_only_on_claim_witness :
  let h := handle false (add_handler claim (add_handler decline create)) vmcs0 in
  exists c, last (h_calls h) = Some c /\ call_returned c = Ret true /\
            h_vmcs h = call_vmcs_out c.
Proof.
  destruct (handle_returns_only_on_claim false
              (add_handler claim (add_handler decline create)) vmcs0 true
              eq_refl) as (_ & c & Hlast & Hc & Hv & _).
  exists c. split; [exact Hlast|]. split; [exact Hc|exact Hv].
Defined.

Lemma handle_propagates_delegate_exception_witness :
  let self := mk true (replicate 256 0) [decline; throwing; claim] in
  let h := handle false self
             (set_vm_exit_interruption_information 0x80000022 vmcs0) in
  h_result h = Throw (runtime_error "handler failed") /\
  map callee (h_calls h) = [decline; throwing] /\
  counter (h_self h) 34 = 1.
Proof.
  destruct (handle_propagates_delegate_exception false
              (mk true (replicate 256 0) [decline; throwing; claim])
              [decline] throwing [claim]
              (set_vm_exit_interruption_information 0x80000022 vmcs0)
              (set_vm_exit_interruption_information 0x80000022 vmcs0)
              (mk_info 34) (runtime_error "handler failed")
              (set_vm_exit_interruption_information 0x80000022 vmcs0)
              (mk_info 34) eq_refl eq_refl
              (all_decline_cons _ _ _ _ _ _ _ _ eq_refl (all_decline_nil _ _))
              eq_refl)
    as (Hres & Hcalls & _ & Hcnt).
  split; [exact Hres|]. split; [exact Hcalls|exact (Hcnt eq_refl)].
Defined.

Lemma handle_threads_state_witness :
  let vmcs := set_vm_exit_interruption_information 0x800000C8 vmcs0 in
  let h := handle false (add_handler decline create) vmcs in
  exists i',
    threaded vmcs (mk_info 200) (h_calls h) (h_vmcs h) i' /\
    ((forall c, In c (h_calls h) -> call_returned c = Ret false) ->
     map callee (h_calls h) = [decline] /\
     h_result h =
       Throw (runtime_error
                (String.append "Unhandled interrupt vector: "
                   (to_string (vector i'))))).
Proof.
  exact (handle_threads_state false (add_handler decline create)
           (set_vm_exit_interruption_information 0x800000C8 vmcs0) eq_refl).
Defined.

Lemma handle_object_frame_witness :
  let self := add_handler claim (enable_log create) in
  h_self (handle true self vmcs0) = self /\
  m_log (h_self (handle false self vmcs0)) !! 7%nat = Some 0.
Proof.
  destruct (handle_object_frame true (add_handler claim (enable_log create))
              vmcs0) as (_ & _ & _ & _ & Hoff).
  destruct (handle_object_frame false (add_handler claim (enable_log create))
              vmcs0) as (_ & _ & _ & Hother & _).
  split; [exact (Hoff eq_refl)|].
  rewrite (Hother 7%nat); [reflexivity|discriminate].
Defined.

Lemma exiting_calls_frame_witness :
  let v := set_vm_exit_controls 0x36DFF
             (set_pin_based_vm_execution_controls 0x16 vmcs0) in
  let v' := run_exiting_call call_enable_exiting v in
  set_pin_based_vm_execution_controls 0x16 (set_vm_exit_controls 0x36DFF v')
  = v /\
  0 <= pin_controls v' < 2 ^ 32 /\
  0 <= exit_controls v' < 2 ^ 32.
Proof.
  assert (Hp : 0 <= 0x16 < 2 ^ 32) by lia.
  assert (He : 0 <= 0x36DFF < 2 ^ 32) by lia.
  destruct (exiting_calls_frame call_enable_exiting
              (set_vm_exit_controls 0x36DFF
                 (set_pin_based_vm_execution_controls 0x16 vmcs0)) Hp He)
    as (Hframe & _ & _ & Hp' & He').
  split; [exact Hframe|]. split; [exact Hp'|exact He'].
Defined.

Lemma exiting_round_trip_witness :
  disable_exiting (enable_exiting vmcs0) = vmcs0.
Proof.
  exact (proj1 (exiting_round_trip vmcs0) eq_refl eq_refl).
Defined.

Lemma dump_log_lists_nonzero_counters_witness :
  fst (dump_log (mk true (<[200%nat := 1]> (<[34%nat := 3]> (replicate 256 0)))
                   []))
  = Ret [bfdebug_lnbr; bfdebug_info "External interrupt counts"; bfdebug_brk2;
         bfdebug_subnhex "34" 3; bfdebug_subnhex "200" 1; bfdebug_lnbr].
Proof.
  assert (Hlen : length (m_log (mk true (<[200%nat := 1]>
                                          (<[34%nat := 3]> (replicate 256 0)))
                                  [])) = 256%nat)
    by (vm_compute; reflexivity).
  rewrite (dump_log_lists_nonzero_counters _ Hlen).
  reflexivity.
Defined.

Lemma dump_log_after_exits_witness :
  fst (dump_log
         (fst (handle_exits false (add_handler claim (enable_log create)) vmcs0
                 [0x80000022; 0x80000022; 0x800000C8; 0x80000022])))
  = Ret [bfdebug_lnbr; bfdebug_info "External interrupt counts"; bfdebug_brk2;
         bfdebug_subnhex "34" 3; bfdebug_subnhex "200" 1; bfdebug_lnbr].
Proof.
  assert (Hb : Z.of_nat 4 < uint64_modulus) by (unfold uint64_modulus; lia).
  rewrite (dump_log_after_exits false (add_handler claim (enable_log create))
             vmcs0 [0x80000022; 0x80000022; 0x800000C8; 0x80000022]
             eq_refl eq_refl Hb).
  reflexivity.
Defined.

Lemma counters_add_up_to_exits_witness :
  foldr Z.add 0
    (m_log (fst (handle_exits false (enable_log create) vmcs0
                   [0x80000022; 0x80000022; 0x800000C8; 0x80000022])))
  = 4.
Proof.
  assert (Hb : Z.of_nat 4 < uint64_modulus) by (unfold uint64_modulus; lia).
  exact (counters_add_up_to_exits false (enable_log create) vmcs0
           [0x80000022; 0x80000022; 0x800000C8; 0x80000022]
           eq_refl eq_refl Hb).
Defined.

Lemma destructor_never_throws_witness :
  returns_normally (destructor false (enable_log create)) /\
  destructor true (enable_log create) = Ret [].
Proof.
  split.
  - exact (proj1 (destructor_never_throws false (enable_log create) eq_refl)).
  - exact (proj1 (proj2 (destructor_never_throws true (enable_log create)
                           eq_refl)) (or_introl eq_refl)).
Defined.

Lemma add_handler_takes_precedence_witness :
  let h := handle false (add_handler claim (add_handler throwing create))
             vmcs0 in
  h_result h = Ret true /\ h_calls h = [mk_call claim vmcs0 (mk_info 0)].
Proof.
  destruct (add_handler_takes_precedence false (add_handler throwing create)
              claim vmcs0 eq_refl) as [Hclaim _].
  destruct (Hclaim vmcs0 (mk_info 0) eq_refl) as (Hres & Hcalls & _).
  split; [exact Hres|exact Hcalls].
Defined.

End external_interrupt_more.
